(** * goleveldb, leveldb/storage/file_storage.go: the file-system backed storage

    A shallow embedding of file_storage.go and of the parts of Go's
    standard library it leans on (unicode/utf8, strconv.ParseUint, the
    fmt verbs %d and %s of Sprintf and Sscanf), followed by the properties
    of the name codec, the diagnostic log, the manifest pointer and the
    open-file accounting. *)

From Stdlib Require Import ZArith NArith Ascii String List Lia Bool.
From stdpp Require Import base option list gmap strings.

Local Open Scope N_scope.

(** Go values: a [string] is a byte sequence, a [rune] a code point. *)
Abbreviation byte := ascii (only parsing).
Abbreviation rune := N (only parsing).

Definition newline : string := String "010"%char EmptyString.

(* ===================================================================== *)
(** ** unicode/utf8 *)
(* ===================================================================== *)

Module utf8.

Definition RuneError : rune := 0xFFFD.
Definition MaxRune : rune := 0x10FFFF.

Definition between (lo hi b : N) : bool := (lo <=? b) && (b <=? hi).

(** Continuation bytes, [locb] .. [hicb]. *)
Definition cont (b : N) : bool := between 0x80 0xBF b.

(** Number of bytes announced by a leading byte; 0 for a byte that cannot
    start a sequence (the [xx] entries of the table [first]). *)
Definition lead_size (p0 : N) : N :=
  if p0 <? 0x80 then 1
  else if between 0xC2 0xDF p0 then 2
  else if between 0xE0 0xEF p0 then 3
  else if between 0xF0 0xF4 p0 then 4
  else 0.

(** [acceptRanges]: what the second byte may be, by leading byte. *)
Definition accept (p0 b1 : N) : bool :=
  if p0 =? 0xE0 then between 0xA0 0xBF b1
  else if p0 =? 0xED then between 0x80 0x9F b1
  else if p0 =? 0xF0 then between 0x90 0xBF b1
  else if p0 =? 0xF4 then between 0x80 0x8F b1
  else cont b1.

Definition maskx (b : N) : N := N.land b 0x3F.

(** The runes [DecodeRune] yields when it is applied again and again to
    what is left of [s]: an ill-formed or truncated sequence gives
    [RuneError] and consumes one byte. *)
Fixpoint runes (s : string) : list rune :=
  match s with
  | EmptyString => []
  | String c0 s1 =>
    let p0 := N_of_ascii c0 in
    let invalid := RuneError :: runes s1 in
    if p0 <? 0x80 then p0 :: runes s1
    else if lead_size p0 =? 0 then invalid
    else
      match s1 with
      | EmptyString => invalid
      | String c1 s2 =>
        let b1 := N_of_ascii c1 in
        if negb (accept p0 b1) then invalid
        else if lead_size p0 =? 2 then
          N.lor (N.shiftl (N.land p0 0x1F) 6) (maskx b1) :: runes s2
        else
          match s2 with
          | EmptyString => invalid
          | String c2 s3 =>
            let b2 := N_of_ascii c2 in
            if negb (cont b2) then invalid
            else if lead_size p0 =? 3 then
              N.lor (N.shiftl (N.land p0 0x0F) 12)
                (N.lor (N.shiftl (maskx b1) 6) (maskx b2)) :: runes s3
            else
              match s3 with
              | EmptyString => invalid
              | String c3 s4 =>
                let b3 := N_of_ascii c3 in
                if negb (cont b3) then invalid
                else
                  N.lor (N.shiftl (N.land p0 0x07) 18)
                    (N.lor (N.shiftl (maskx b1) 12)
                       (N.lor (N.shiftl (maskx b2) 6) (maskx b3))) :: runes s4
              end
          end
      end
  end.

(** [AppendRune]: the bytes of one rune. *)
Definition EncodeRune (r : rune) : string :=
  let b (n : N) := ascii_of_N n in
  if r <? 0x80 then String (b r) EmptyString
  else if r <? 0x800 then
    String (b (N.lor 0xC0 (N.shiftr r 6)))
      (String (b (N.lor 0x80 (maskx r))) EmptyString)
  else if (MaxRune <? r) || between 0xD800 0xDFFF r then
    String (b 0xEF) (String (b 0xBF) (String (b 0xBD) EmptyString))
  else if r <? 0x10000 then
    String (b (N.lor 0xE0 (N.shiftr r 12)))
      (String (b (N.lor 0x80 (maskx (N.shiftr r 6))))
         (String (b (N.lor 0x80 (maskx r))) EmptyString))
  else
    String (b (N.lor 0xF0 (N.shiftr r 18)))
      (String (b (N.lor 0x80 (maskx (N.shiftr r 12))))
         (String (b (N.lor 0x80 (maskx (N.shiftr r 6))))
            (String (b (N.lor 0x80 (maskx r))) EmptyString))).

Fixpoint encode (rs : list rune) : string :=
  match rs with
  | [] => EmptyString
  | r :: rs' => String.append (EncodeRune r) (encode rs')
  end.

End utf8.

(* ===================================================================== *)
(** ** strconv and fmt: the verbs the storage uses *)
(* ===================================================================== *)

Module strconv.

Definition maxUint64 : N := 2 ^ 64 - 1.

(** [ParseUint(tok, 10, 64)] on a token of decimal digits: the loop
    [n = n*10 + d] with its two range checks; [None] is the range error. *)
Fixpoint ParseUint_loop (tok : list rune) (n : N) : option N :=
  match tok with
  | [] => Some n
  | c :: tok' =>
    if maxUint64 / 10 + 1 <=? n then None
    else
      let n1 := n * 10 + (c - 48) in
      if maxUint64 <? n1 then None else ParseUint_loop tok' n1
  end.

Definition ParseUint (tok : list rune) : option N :=
  match tok with
  | [] => None
  | _ => ParseUint_loop tok 0
  end.

End strconv.

Module fmt.

(** *** Printing *)

Definition digit_char (d : N) : byte := ascii_of_N (48 + d).

(** [fmtInteger], base 10: the digits are laid down from the right. *)
Fixpoint fmt_digits (fuel : nat) (u : N) (acc : string) : string :=
  match fuel with
  | O => acc
  | S fuel' =>
    if u <? 10 then String (digit_char u) acc
    else fmt_digits fuel' (u / 10) (String (digit_char (u mod 10)) acc)
  end.

(** [%d] of an unsigned integer. *)
Definition decimal (u : N) : string :=
  fmt_digits (S (N.to_nat (N.log2 u))) u EmptyString.

Fixpoint zeros (k : nat) (s : string) : string :=
  match k with
  | O => s
  | S k' => String "0"%char (zeros k' s)
  end.

(** [%0<wid>d]: zero padding up to the width, never a truncation. *)
Definition decimal_pad (wid : nat) (u : N) : string :=
  let s := decimal u in
  zeros (wid - String.length s) s.

(** [%d] of a signed integer. *)
Definition decimal_int (z : Z) : string :=
  if (z <? 0)%Z then String "-"%char (decimal (Z.to_N (- z)))
  else decimal (Z.to_N z).

(** *** Scanning *)

(** The table [space] of fmt/scan.go. *)
Definition isSpace (r : rune) : bool :=
  utf8.between 0x0009 0x000D r || (r =? 0x0020) || (r =? 0x0085)
  || (r =? 0x00A0) || (r =? 0x1680) || utf8.between 0x2000 0x200A r
  || utf8.between 0x2028 0x2029 r || (r =? 0x202F) || (r =? 0x205F)
  || (r =? 0x3000).

Definition isDigit (r : rune) : bool := utf8.between 48 57 r.

(** Errors a scan can end with. *)
Inductive scanError :=
  | EOF
  | ErrUnexpectedEOF
  | unexpected_newline
  | expected_integer
  | input_does_not_match_format
  | value_out_of_range.

(** A scanning step: the value read and the runes left, or the error the
    scan panics with. *)
Inductive scan (A : Type) :=
  | Scanned (a : A) (rest : list rune)
  | Failed (e : scanError).
Arguments Scanned {A} a rest.
Arguments Failed {A} e.

(** [SkipSpace] with [nlIsSpace] unset, as [Sscanf] runs it. *)
Fixpoint SkipSpace (s : list rune) : scan unit :=
  match s with
  | [] => Scanned tt []
  | r :: s' =>
    if (r =? 13) && match s' with 10 :: _ => true | _ => false end
    then SkipSpace s'
    else if r =? 10 then Failed unexpected_newline
    else if isSpace r then SkipSpace s'
    else Scanned tt s
  end.

(** The loop [for s.accept(digits) {}]. *)
Fixpoint accept_digits (s : list rune) : list rune * list rune :=
  match s with
  | r :: s' =>
    if isDigit r then let '(tok, rest) := accept_digits s' in (r :: tok, rest)
    else ([], s)
  | [] => ([], [])
  end.

(** [scanUint('d', 64)]. *)
Definition scanUint (s : list rune) : scan N :=
  match SkipSpace s with
  | Failed e => Failed e
  | Scanned _ [] => Failed EOF
  | Scanned _ (r :: s') =>
    if isDigit r then
      let '(tok, rest) := accept_digits (r :: s') in
      match strconv.ParseUint tok with
      | Some u => Scanned u rest
      | None => Failed value_out_of_range
      end
    else Failed expected_integer
  end.

(** [token(true, notSpace)]: the runes up to the next space. *)
Fixpoint token (s : list rune) : list rune * list rune :=
  match s with
  | r :: s' =>
    if isSpace r then ([], s)
    else let '(tok, rest) := token s' in (r :: tok, rest)
  | [] => ([], [])
  end.

(** [convertString('s')]. *)
Definition convertString (s : list rune) : scan string :=
  match SkipSpace s with
  | Failed e => Failed e
  | Scanned _ [] => Failed EOF
  | Scanned _ s1 => let '(tok, rest) := token s1 in Scanned (utf8.encode tok) rest
  end.

(** What a format is made of, for the formats of this package: literal
    runes (neither space nor percent) and the verbs [%d] (into a
    [*uint64]) and [%s] (into a [*string]). *)
Inductive item := Lit (r : rune) | Verb_d | Verb_s.

Fixpoint items (format : list rune) : option (list item) :=
  match format with
  | [] => Some []
  | 37 :: 100 :: format' => cons Verb_d <$> items format'
  | 37 :: 115 :: format' => cons Verb_s <$> items format'
  | 37 :: _ => None
  | r :: format' => if isSpace r then None else cons (Lit r) <$> items format'
  end.

(** What a verb stored through its pointer argument. *)
Inductive value := Uint64 (u : N) | Str (s : string).

(** [doScanf]: [stored] are the operands assigned so far, in order; on an
    error the operands already assigned stay assigned. *)
Fixpoint doScanf (fmt : list item) (s : list rune) (stored : list value)
  : list value * option scanError :=
  match fmt with
  | [] => (stored, None)
  | Lit c :: fmt' =>
    match s with
    | [] => (stored, Some ErrUnexpectedEOF)
    | r :: s' =>
      if r =? c then doScanf fmt' s' stored
      else (stored, Some input_does_not_match_format)
    end
  | Verb_d :: fmt' =>
    match scanUint s with
    | Scanned u rest => doScanf fmt' rest (stored ++ [Uint64 u])
    | Failed e => (stored, Some e)
    end
  | Verb_s :: fmt' =>
    match convertString s with
    | Scanned str rest => doScanf fmt' rest (stored ++ [Str str])
    | Failed e => (stored, Some e)
    end
  end.

(** [Sscanf(str, format, ...)]: the operands stored, their count [n] and
    the error. *)
Record scanned := { stored : list value; err : option scanError }.

Definition n (r : scanned) : nat := length (stored r).

(** The operand at position [k] after the call: what the scan stored
    there, or the value [old] it had before. *)
Definition uint64_at (k : nat) (r : scanned) (old : N) : N :=
  match stored r !! k with
  | Some (Uint64 u) => u
  | _ => old
  end.

Definition string_at (k : nat) (r : scanned) (old : string) : string :=
  match stored r !! k with
  | Some (Str s) => s
  | _ => old
  end.

Definition Sscanf (str format : string) : scanned :=
  match items (utf8.runes format) with
  | Some fmt =>
    let '(vs, e) := doScanf fmt (utf8.runes str) [] in
    {| stored := vs; err := e |}
  | None => {| stored := []; err := Some input_does_not_match_format |}
  end.

End fmt.

(* ===================================================================== *)
(** ** Declarations of storage.go that file_storage.go uses *)
(* ===================================================================== *)

(** Modelled from the spec: the declaration of [FileType] (storage.go) is
    not among the sources.  The spec's data model gives the kind of a
    descriptor as one of Journal, Table, Manifest, Other; [TypeOther]
    stands for every value that is none of the three constants, the zero
    value of a fresh [file] among them. *)
Inductive FileType := TypeManifest | TypeJournal | TypeTable | TypeOther.

Global Instance FileType_eq_dec : EqDecision FileType.
Proof. solve_decision. Defined.

(** Errors of the operating system, each with the text [Error()] gives. *)
Inductive oserror :=
  | syserr (text : string)
  | PathError (op path : string) (e : oserror)
  | LinkError (op old new : string) (e : oserror).

Fixpoint Error (e : oserror) : string :=
  match e with
  | syserr text => text
  | PathError op path e' => op +:+ " " +:+ path +:+ ": " +:+ Error e'
  | LinkError op old new e' =>
    op +:+ " " +:+ old +:+ " " +:+ new +:+ ": " +:+ Error e'
  end.

(** Modelled from the spec: [ErrInvalidFile], [ErrLocked] and [ErrClosed]
    are declared in storage.go, which is not among the sources; the spec's
    error taxonomy names them InvalidFile/InvalidKind, Locked and Closed.
    [errorString] is what [errors.New] and [fmt.Errorf] build. *)
Inductive error :=
  | ErrInvalidFile
  | ErrLocked
  | ErrClosed
  | errorString (text : string)
  | oserr (e : oserror).

Definition errFileOpen : error := errorString "leveldb/storage: file still open".

(** How a call ends: it returns, or it panics. *)
Inductive outcome (A : Type) :=
  | Return (a : A)
  | Panic (msg : string).
Arguments Return {A} a.
Arguments Panic {A} msg.

(** A Go result pair [(T, error)]. *)
Inductive result (A : Type) :=
  | Ok (a : A)
  | Err (e : error).
Arguments Ok {A} a.
Arguments Err {A} e.

(* ===================================================================== *)
(** ** The name codec: file.name and file.parse *)
(* ===================================================================== *)

(** [type file struct]; the back pointer [fs] is left out, there is one
    storage. *)
Record file := mkfile { f_num : N; f_t : FileType; f_open : bool }.

Global Instance file_eq_dec : EqDecision file.
Proof. solve_decision. Defined.

Definition name (f : file) : outcome string :=
  match f_t f with
  | TypeManifest => Return ("MANIFEST-" +:+ fmt.decimal_pad 6 (f_num f))
  | TypeJournal => Return (fmt.decimal_pad 6 (f_num f) +:+ ".log")
  | TypeTable => Return (fmt.decimal_pad 6 (f_num f) +:+ ".sst")
  | TypeOther => Panic "invalid file type"
  end.

(** [parse] assigns [f.t] and [f.num] and leaves [f.open] alone; the
    result is the file after the call and the boolean returned.  The
    locals [num] and [tail] start at their zero values and hold what the
    scans stored. *)
Definition parse (f : file) (name : string) : file * bool :=
  let r1 := fmt.Sscanf name "%d.%s" in
  let num := fmt.uint64_at 0 r1 0 in
  let tail := fmt.string_at 1 r1 EmptyString in
  match fmt.err r1 with
  | None =>
    if String.eqb tail "log" then (mkfile num TypeJournal (f_open f), true)
    else if String.eqb tail "sst" then (mkfile num TypeTable (f_open f), true)
    else (f, false)
  | Some _ =>
    let r2 := fmt.Sscanf name "MANIFEST-%d%s" in
    let num := fmt.uint64_at 0 r2 num in
    if Nat.eqb (fmt.n r2) 1 then (mkfile num TypeManifest (f_open f), true)
    else (f, false)
  end.

(** The codec as the spec words it: [decode] of a name is the descriptor
    [parse] leaves in a fresh file, or no match. *)
Definition decode (name : string) : option (FileType * N) :=
  let '(f, ok) := parse (mkfile 0 TypeOther false) name in
  if ok then Some (f_t f, f_num f) else None.

(* ===================================================================== *)
(** ** The diagnostic log: itoa and doLog *)
(* ===================================================================== *)

Local Open Scope Z_scope.

(** [int] arithmetic on a 64-bit platform: results wrap around. *)
Definition int (z : Z) : Z := ((z + 2 ^ 63) mod 2 ^ 64 - 2 ^ 63)%Z.

(** [uint(i)] on a 64-bit platform. *)
Definition uint (i : Z) : Z := i mod 2 ^ 64.

(** The loop of [itoa]: [bp] slots of [b] are still free, [acc] is
    [b[bp:]].  Stepping below slot 0 is an index out of range.  [wid] is
    an [int]: [wid--] at the least [int] wraps around to the greatest. *)
Fixpoint itoa_loop (bp : nat) (u wid : Z) (acc : string) : outcome string :=
  if (0 <? u) || (0 <? wid) then
    match bp with
    | O => Panic "index out of range [-1]"
    | S bp' =>
      itoa_loop bp' (u / 10) (int (wid - 1))
        (String (ascii_of_N (Z.to_N (u mod 10 + 48))) acc)
    end
  else Return acc.

Definition itoa (buf : string) (i wid : Z) : outcome string :=
  let u := uint i in
  if (u =? 0) && (wid <=? 1) then Return (buf +:+ "0")
  else
    match itoa_loop 32 u wid EmptyString with
    | Return digits => Return (buf +:+ digits)
    | Panic msg => Panic msg
    end.

(** What [doLog] reads off a [time.Time]: [Date()], [Clock()] and
    [Nanosecond()]. *)
Record Time := mkTime {
  year : Z; month : Z; day : Z;
  hour : Z; min : Z; sec : Z;
  Nanosecond : Z }.

Definition bind_outcome {A B} (m : outcome A) (k : A -> outcome B) : outcome B :=
  match m with
  | Return a => k a
  | Panic msg => Panic msg
  end.

(** The bytes [doLog] assembles in [fs.buf] before the write. *)
Definition doLog_buf (t : Time) (str : string) : outcome string :=
  let msec := Z.quot (Nanosecond t) 1000 in
  (* date *)
  bind_outcome (itoa EmptyString (year t) 4) (fun buf =>
  let buf := buf +:+ "/" in
  bind_outcome (itoa buf (month t) 2) (fun buf =>
  let buf := buf +:+ "/" in
  bind_outcome (itoa buf (day t) 4) (fun buf =>
  let buf := buf +:+ " " in
  (* time *)
  bind_outcome (itoa buf (hour t) 2) (fun buf =>
  let buf := buf +:+ ":" in
  bind_outcome (itoa buf (min t) 2) (fun buf =>
  let buf := buf +:+ ":" in
  bind_outcome (itoa buf (sec t) 2) (fun buf =>
  let buf := buf +:+ "." in
  bind_outcome (itoa buf msec 6) (fun buf =>
  let buf := buf +:+ " " in
  (* write *)
  let buf := buf +:+ str in
  Return (buf +:+ newline)))))))).

Local Close Scope Z_scope.


(* ===================================================================== *)
(** ** The world: the storage object, the Go heap and the directory *)
(* ===================================================================== *)

(** An [*os.File] on an entry of the directory. *)
Record osFile := mkosFile { of_name : string; of_closed : bool }.

(** The [*os.File] of the diagnostic log, with the bytes written through
    it so far. *)
Record logFile := mklogFile { lw_written : string; lw_closed : bool }.

(** [type fileStorage struct].  [fs_flock] tells whether the process lock
    is held, [fs_slock] is the pointer to the outstanding
    [fileStorageLock] or nil, [fs_finalizer] whether the finalizer set by
    [OpenFile] is still registered; [mu] is left out, calls are modelled
    one at a time. *)
Record fileStorage := mkfileStorage {
  fs_path : string;
  fs_flock : bool;
  fs_slock : option nat;
  fs_logw : logFile;
  fs_buf : string;
  fs_open : Z;
  fs_finalizer : bool }.

(** [heap] holds the [file] objects, a [*file] is an index into it;
    [files] the [os.File] objects of data files; [dir] the entries of the
    directory [fs.path] with their contents; [nlocks] counts the
    [fileStorageLock] objects made so far. *)
Record World := mkWorld {
  fs : fileStorage;
  heap : list file;
  files : list osFile;
  dir : gmap string string;
  nlocks : nat }.

(** What the operating system and the clock answer during one call:
    successive readings of [time.Now()], and for each system call whether
    it fails and with which error text.  A failing write tells how many
    bytes went out before the failure. *)
Record OS := mkOS {
  clock : nat -> Time;
  fault_open : option string;
  fault_read : option string;
  fault_readdir : option string;
  fault_write : option (nat * string);
  fault_close : option string;
  fault_rename : option string;
  fault_remove : option string;
  fault_unlock : option string;
  fault_logw : nat -> option nat }.

Definition set_fs (w : World) (x : fileStorage) : World :=
  mkWorld x (heap w) (files w) (dir w) (nlocks w).
Definition set_heap (w : World) (x : list file) : World :=
  mkWorld (fs w) x (files w) (dir w) (nlocks w).
Definition set_files (w : World) (x : list osFile) : World :=
  mkWorld (fs w) (heap w) x (dir w) (nlocks w).
Definition set_dir (w : World) (x : gmap string string) : World :=
  mkWorld (fs w) (heap w) (files w) x (nlocks w).
Definition set_nlocks (w : World) (x : nat) : World :=
  mkWorld (fs w) (heap w) (files w) (dir w) x.

Definition set_fs_open (s : fileStorage) (x : Z) : fileStorage :=
  mkfileStorage (fs_path s) (fs_flock s) (fs_slock s) (fs_logw s) (fs_buf s)
    x (fs_finalizer s).
Definition set_fs_slock (s : fileStorage) (x : option nat) : fileStorage :=
  mkfileStorage (fs_path s) (fs_flock s) x (fs_logw s) (fs_buf s)
    (fs_open s) (fs_finalizer s).
Definition set_fs_flock (s : fileStorage) (x : bool) : fileStorage :=
  mkfileStorage (fs_path s) x (fs_slock s) (fs_logw s) (fs_buf s)
    (fs_open s) (fs_finalizer s).
Definition set_fs_logw (s : fileStorage) (x : logFile) : fileStorage :=
  mkfileStorage (fs_path s) (fs_flock s) (fs_slock s) x (fs_buf s)
    (fs_open s) (fs_finalizer s).
Definition set_fs_buf (s : fileStorage) (x : string) : fileStorage :=
  mkfileStorage (fs_path s) (fs_flock s) (fs_slock s) (fs_logw s) x
    (fs_open s) (fs_finalizer s).
Definition set_fs_finalizer (s : fileStorage) (x : bool) : fileStorage :=
  mkfileStorage (fs_path s) (fs_flock s) (fs_slock s) (fs_logw s) (fs_buf s)
    (fs_open s) x.

Definition set_f_open (f : file) (x : bool) : file :=
  mkfile (f_num f) (f_t f) x.

(** Calls as state transformers over the world that may panic. *)
Definition M (A : Type) : Type := World -> World * outcome A.

Definition ret {A} (a : A) : M A := fun w => (w, Return a).
Definition panic {A} (msg : string) : M A := fun w => (w, Panic msg).
Definition bind {A B} (m : M A) (k : A -> M B) : M B :=
  fun w =>
    match m w with
    | (w', Return a) => k a w'
    | (w', Panic msg) => (w', Panic msg)
    end.
Definition get : M World := fun w => (w, Return w).
Definition modify (g : World -> World) : M unit := fun w => (g w, Return tt).
Definition lift {A} (o : outcome A) : M A := fun w => (w, o).

Global Instance M_ret : MRet M := @ret.
Global Instance M_bind : MBind M := fun A B k m => bind m k.

(** The first [k] bytes of [s]. *)
Fixpoint prefix (k : nat) (s : string) : string :=
  match k, s with
  | S k', String c s' => String c (prefix k' s')
  | _, _ => EmptyString
  end.

(* ===================================================================== *)
(** ** Package os, as far as the storage calls it *)
(* ===================================================================== *)

Module os.

Definition ENOENT : oserror := syserr "no such file or directory".
Definition ErrClosed : oserror := syserr "file already closed".

Definition isPathSeparator (c : ascii) : bool := Ascii.eqb c "/".

(** Whether an element ends here: at the end of the path or before a
    separator. *)
Definition element_ends (p : list ascii) : bool :=
  match p with
  | [] => true
  | c :: _ => isPathSeparator c
  end.

(** The bytes of the element at the front of [p], up to the separator. *)
Fixpoint element (p : list ascii) : list ascii :=
  match p with
  | [] => []
  | c :: p' => if isPathSeparator c then [] else c :: element p'
  end.

(** The backtracking of [filepath.Clean] at a [..] element: [out.w--],
    then down to [dotdot] or to the last separator, which is dropped. *)
Fixpoint backtrack (k : nat) (out : list ascii) (dotdot : nat) : list ascii :=
  match k with
  | O => take dotdot out
  | S k' =>
    let w := (dotdot + k)%nat in
    match out !! w with
    | Some c => if isPathSeparator c then take w out else backtrack k' out dotdot
    | None => backtrack k' out dotdot
    end
  end.

(** The loop of [filepath.Clean]: [p] is [path[r:]], [out] the buffer
    written so far, [dotdot] the index where [..] must stop. *)
Fixpoint Clean_loop (fuel : nat) (rooted : bool) (p out : list ascii)
    (dotdot : nat) : list ascii :=
  match fuel with
  | O => out
  | S fuel' =>
    match p with
    | [] => out
    | c :: p1 =>
      if isPathSeparator c then Clean_loop fuel' rooted p1 out dotdot
      else if Ascii.eqb c "." && element_ends p1 then
        Clean_loop fuel' rooted p1 out dotdot
      else if Ascii.eqb c "."
              && match p1 with
                 | c1 :: p2 => Ascii.eqb c1 "." && element_ends p2
                 | [] => false
                 end then
        let p2 := drop 1 p1 in
        if (dotdot <? length out)%nat then
          Clean_loop fuel' rooted p2
            (backtrack (length out - 1 - dotdot) out dotdot) dotdot
        else if negb rooted then
          let out' :=
            (if (0 <? length out)%nat then out ++ ["/"%char] else out)
            ++ ["."%char; "."%char] in
          Clean_loop fuel' rooted p2 out' (length out')
        else Clean_loop fuel' rooted p2 out dotdot
      else
        let out' :=
          if (rooted && negb (length out =? 1)%nat)
             || (negb rooted && negb (length out =? 0)%nat)
          then out ++ ["/"%char] else out in
        let elem := element p in
        Clean_loop fuel' rooted (drop (length elem) p) (out' ++ elem) dotdot
    end
  end.

(** [filepath.Clean], for a path without a volume name. *)
Definition Clean (path : string) : string :=
  let p := list_ascii_of_string path in
  match p with
  | [] => "."
  | c :: _ =>
    let rooted := isPathSeparator c in
    let out :=
      if rooted then Clean_loop (length p) rooted (drop 1 p) ["/"%char] 1
      else Clean_loop (length p) rooted p [] 0 in
    match out with
    | [] => "."
    | _ => string_of_list_ascii out
    end
  end.

(** [filepath.Join(fs.path, name)]: the elements that are not empty,
    joined by the separator and cleaned. *)
Definition Join (path name : string) : string :=
  if String.eqb path EmptyString then
    if String.eqb name EmptyString then EmptyString else Clean name
  else Clean (path +:+ "/" +:+ name).

Definition path_of (w : World) (name : string) : string :=
  Join (fs_path (fs w)) name.

Definition new_File (name : string) : M nat :=
  fun w => (set_files w (files w ++ [mkosFile name false]),
            Return (length (files w))).

(** [os.OpenFile(path, os.O_RDONLY, 0)]. *)
Definition Open (o : OS) (name : string) : M (nat + oserror) :=
  fun w =>
    match fault_open o with
    | Some text => (w, Return (inr (PathError "open" (path_of w name) (syserr text))))
    | None =>
      match dir w !! name with
      | None => (w, Return (inr (PathError "open" (path_of w name) ENOENT)))
      | Some _ => bind (new_File name) (fun fd => ret (inl fd)) w
      end
    end.

(** [os.OpenFile(path, os.O_WRONLY|os.O_CREATE|os.O_TRUNC, 0644)]. *)
Definition Create (o : OS) (name : string) : M (nat + oserror) :=
  fun w =>
    match fault_open o with
    | Some text => (w, Return (inr (PathError "open" (path_of w name) (syserr text))))
    | None =>
      bind (new_File name) (fun fd => ret (inl fd))
        (set_dir w (<[name := EmptyString]> (dir w)))
    end.

(** [Close] of an [os.File]. *)
Definition Close (o : OS) (fd : nat) : M (option oserror) :=
  fun w =>
    match files w !! fd with
    | None => (w, Panic "invalid memory address or nil pointer dereference")
    | Some f =>
      if of_closed f then
        (w, Return (Some (PathError "close" (path_of w (of_name f)) ErrClosed)))
      else
        (set_files w (<[fd := mkosFile (of_name f) true]> (files w)),
         Return (match fault_close o with
                 | Some text =>
                   Some (PathError "close" (path_of w (of_name f)) (syserr text))
                 | None => None
                 end))
    end.

(** The first write through a file opened with [O_TRUNC]. *)
Definition Write (o : OS) (fd : nat) (data : string) : M (option oserror) :=
  fun w =>
    match files w !! fd with
    | None => (w, Panic "invalid memory address or nil pointer dereference")
    | Some f =>
      if of_closed f then
        (w, Return (Some (PathError "write" (path_of w (of_name f)) ErrClosed)))
      else
        match fault_write o with
        | Some (k, text) =>
          (set_dir w (<[of_name f := prefix k data]> (dir w)),
           Return (Some (PathError "write" (path_of w (of_name f)) (syserr text))))
        | None => (set_dir w (<[of_name f := data]> (dir w)), Return None)
        end
    end.

(** [ioutil.ReadAll] on a file just opened. *)
Definition ReadAll (o : OS) (fd : nat) : M (string + oserror) :=
  fun w =>
    match files w !! fd with
    | None => (w, Panic "invalid memory address or nil pointer dereference")
    | Some f =>
      match fault_read o with
      | Some text =>
        (w, Return (inr (PathError "read" (path_of w (of_name f)) (syserr text))))
      | None => (w, Return (inl (default EmptyString (dir w !! of_name f))))
      end
    end.

(** [os.Remove(path)]. *)
Definition Remove (o : OS) (name : string) : M (option oserror) :=
  fun w =>
    match fault_remove o with
    | Some text =>
      (w, Return (Some (PathError "remove" (path_of w name) (syserr text))))
    | None =>
      match dir w !! name with
      | None => (w, Return (Some (PathError "remove" (path_of w name) ENOENT)))
      | Some _ => (set_dir w (delete name (dir w)), Return None)
      end
    end.

(** The directory read of [GetFiles]: [os.Open], [Readdirnames(0)]. *)
Definition Readdirnames (o : OS) : M (list string + oserror) :=
  fun w =>
    match fault_readdir o with
    | Some text =>
      (w, Return (inr (PathError "readdirent" (fs_path (fs w)) (syserr text))))
    | None => (w, Return (inl ((map_to_list (dir w)).*1)))
    end.

End os.

(** Modelled from the spec: [rename] is declared in a platform file that
    is not among the sources.  The spec has it rename the temporary file
    over the canonical name atomically: the entry [old] goes away and
    [new] gets its content, or the call fails and nothing moves. *)
Definition rename (o : OS) (old new : string) : M (option oserror) :=
  fun w =>
    match fault_rename o with
    | Some text =>
      (w, Return (Some (LinkError "rename" (os.path_of w old)
                          (os.path_of w new) (syserr text))))
    | None =>
      match dir w !! old with
      | None =>
        (w, Return (Some (LinkError "rename" (os.path_of w old)
                            (os.path_of w new) os.ENOENT)))
      | Some content =>
        (set_dir w (<[new := content]> (delete old (dir w))), Return None)
      end
    end.

(** Modelled from the spec: [fileLock.release] is implemented in a
    platform file that is not among the sources.  The spec has it release
    the process lock; the error it returns is the operating system's. *)
Definition flock_release (o : OS) : M (option oserror) :=
  fun w =>
    (set_fs w (set_fs_flock (fs w) false),
     Return (syserr <$> fault_unlock o)).

(* ===================================================================== *)
(** ** fileStorage and file: the methods *)
(* ===================================================================== *)

(** A [File] handed to the storage: a [*file] of this package, or a value
    of some other type that implements the interface. *)
Inductive File := file_ptr (r : nat) | other_File.

(** [type fileWrap struct]: the [os.File] and the [*file]. *)
Record fileWrap := mkfileWrap { fw_File : nat; fw_f : nat }.

Definition nil_dereference : string :=
  "invalid memory address or nil pointer dereference".

Definition deref (r : nat) : M file :=
  fun w =>
    match heap w !! r with
    | Some f => (w, Return f)
    | None => (w, Panic nil_dereference)
    end.

Definition new_file (f : file) : M nat :=
  fun w => (set_heap w (heap w ++ [f]), Return (length (heap w))).

Definition set_open (r : nat) (x : bool) : M unit :=
  modify (fun w =>
    match heap w !! r with
    | Some f => set_heap w (<[r := set_f_open f x]> (heap w))
    | None => w
    end).

Definition add_open (d : Z) : M unit :=
  modify (fun w => set_fs w (set_fs_open (fs w) (int (fs_open (fs w) + d)))).

(** [fs.logw.Write(fs.buf)]; the error is dropped. *)
Definition logw_Write (fault : option nat) (data : string) (l : logFile) : logFile :=
  if lw_closed l then l
  else
    match fault with
    | Some k => mklogFile (lw_written l +:+ prefix k data) false
    | None => mklogFile (lw_written l +:+ data) false
    end.

Definition doLog (fault : option nat) (t : Time) (str : string) : M unit :=
  buf ← lift (doLog_buf t str);
  modify (fun w =>
    set_fs w (set_fs_logw (set_fs_buf (fs w) buf)
                (logw_Write fault buf (fs_logw (fs w))))).

(** [fs.log(str)], the [k]-th reading of the clock in this call. *)
Definition log (o : OS) (k : nat) (str : string) : M unit :=
  doLog (fault_logw o k) (clock o k) str.

Definition Log (o : OS) (str : string) : M unit :=
  let t := clock o 0 in
  w ← get;
  if (fs_open (fs w) <? 0)%Z then mret tt
  else doLog (fault_logw o 0) t str.

Definition Lock : M (result nat) :=
  w ← get;
  if (fs_open (fs w) <? 0)%Z then mret (Err ErrClosed)
  else
    match fs_slock (fs w) with
    | Some _ => mret (Err ErrLocked)
    | None =>
      modify (fun w =>
        set_nlocks (set_fs w (set_fs_slock (fs w) (Some (nlocks w))))
          (S (nlocks w)));;
      mret (Ok (nlocks w))
    end.

Definition Release (lock : nat) : M unit :=
  modify (fun w =>
    if decide (fs_slock (fs w) = Some lock)
    then set_fs w (set_fs_slock (fs w) None)
    else w).

Definition GetFile (num : N) (t : FileType) : M nat :=
  new_file (mkfile num t false).

(** The loop of [GetFiles]: a name that parses to a wanted kind gets a
    [file] of its own.  [wanted] is the test [(f.t & t) != 0]. *)
Fixpoint GetFiles_loop (wanted : FileType -> bool) (fnn : list string) : M (list nat) :=
  match fnn with
  | [] => mret []
  | fn :: fnn' =>
    let '(f, ok) := parse (mkfile 0 TypeOther false) fn in
    if ok && wanted (f_t f) then
      r ← new_file f;
      ff ← GetFiles_loop wanted fnn';
      mret (r :: ff)
    else GetFiles_loop wanted fnn'
  end.

Definition GetFiles (o : OS) (wanted : FileType -> bool) : M (result (list nat)) :=
  w ← get;
  if (fs_open (fs w) <? 0)%Z then mret (Err ErrClosed)
  else
    match fault_open o with
    | Some text =>
      mret (Err (oserr (PathError "open" (fs_path (fs w)) (syserr text))))
    | None =>
      fnn ← os.Readdirnames o;
      match fault_close o with
      | Some text =>
        log o 0 ("close dir: " +:+
                 Error (PathError "close" (fs_path (fs w)) (syserr text)))
      | None => mret tt
      end;;
      match fnn with
      | inr e => mret (Err (oserr e))
      | inl fnn => ff ← GetFiles_loop wanted fnn; mret (Ok ff)
      end
    end.

(** The [file] made before the test of the content is kept on the heap
    only when it is returned; otherwise nothing refers to it. *)
Definition GetManifest (o : OS) : M (result nat) :=
  w ← get;
  if (fs_open (fs w) <? 0)%Z then mret (Err ErrClosed)
  else
    x ← os.Open o "CURRENT";
    match x with
    | inr (PathError _ _ e) => mret (Err (oserr e))
    | inr _ => panic "interface conversion: error is not *os.PathError"
    | inl r =>
      b ← os.ReadAll o r;
      res ←
        match b with
        | inr e => mret (Err (oserr e))
        | inl b =>
          match parse (mkfile 0 TypeOther false)
                  (prefix (String.length b - 1) b) with
          | (f, ok) =>
            if (String.length b <? 1)%nat
               || negb (String.eqb (String.substring (String.length b - 1) 1 b)
                          newline)
               || negb ok
            then mret (Err (errorString "leveldb/storage: invalid CURRENT file"))
            else p ← new_file f; mret (Ok p)
          end
        end;
      (* deferred *)
      e ← os.Close o r;
      match e with
      | Some e => log o 0 ("close CURRENT: " +:+ Error e)
      | None => mret tt
      end;;
      mret res
    end.

Definition SetManifest (o : OS) (f : File) : M (option error) :=
  w ← get;
  if (fs_open (fs w) <? 0)%Z then mret (Some ErrClosed)
  else
    match f with
    | other_File => mret (Some ErrInvalidFile)
    | file_ptr r =>
      f2 ← deref r;
      if negb (bool_decide (f_t f2 = TypeManifest)) then mret (Some ErrInvalidFile)
      else
        let path := "CURRENT" +:+ "." +:+ fmt.decimal (f_num f2) in
        x ← os.Create o path;
        err ←
          match x with
          | inr e => mret (Some e)
          | inl tmp =>
            nm ← lift (name f2);
            err ← os.Write o tmp (nm +:+ newline);
            err ←
              match err with
              | Some e => mret (Some e)
              | None => rename o path "CURRENT"
              end;
            (* deferred *)
            e ← os.Close o tmp;
            match e with
            | Some e =>
              log o 0 ("close CURRENT." +:+ fmt.decimal (f_num f2) +:+ ": "
                       +:+ Error e)
            | None => mret tt
            end;;
            mret err
          end;
        (* deferred *)
        match err with
        | Some e => log o 1 ("CURRENT: " +:+ Error e);; mret (Some (oserr e))
        | None => mret None
        end
    end.

Definition Close (o : OS) : M (option error) :=
  w ← get;
  if (fs_open (fs w) <? 0)%Z then mret (Some ErrClosed)
  else
    (* Clear the finalizer. *)
    modify (fun w => set_fs w (set_fs_finalizer (fs w) false));;
    if (fs_open (fs w) >? 0)%Z then
      log o 0 ("refuse to close, " +:+ fmt.decimal_int (fs_open (fs w))
               +:+ " files still open");;
      mret (Some (errorString ("leveldb/storage: cannot close, "
                               +:+ fmt.decimal_int (fs_open (fs w))
                               +:+ " files still open")))
    else
      modify (fun w => set_fs w (set_fs_open (fs w) (-1)));;
      w ← get;
      let e1 :=
        if lw_closed (fs_logw (fs w))
        then Some (PathError "close" (os.path_of w "LOG") os.ErrClosed)
        else (fun text => PathError "close" (os.path_of w "LOG") (syserr text))
               <$> fault_close o in
      modify (fun w =>
        set_fs w (set_fs_logw (fs w)
                    (mklogFile (lw_written (fs_logw (fs w))) true)));;
      err ← flock_release o;
      mret (oserr <$> (match err with Some e => Some e | None => e1 end)).

Section Methods.

(** [FileType] is declared in storage.go, which is not among the sources:
    the text [fmt.Sprint] gives for one (its [String] method, or its
    number) is taken as a parameter. *)
Variable FileType_String : FileType -> string.

(** [fmt.Sprint(format, f.Type(), f.Num(), err)]: the operands one after
    the other, with a space between two that are not strings. *)
Definition Sprint_file (format : string) (f : file) (e : oserror) : string :=
  format +:+ FileType_String (f_t f) +:+ " " +:+ fmt.decimal (f_num f)
  +:+ " " +:+ Error e.

Definition fileWrap_Close (o : OS) (fw : fileWrap) : M (option error) :=
  f ← deref (fw_f fw);
  if negb (f_open f) then mret (Some ErrClosed)
  else
    set_open (fw_f fw) false;;
    add_open (-1);;
    err ← os.Close o (fw_File fw);
    match err with
    | Some e => log o 0 (Sprint_file "close %s.%d: %v" f e);; mret (Some (oserr e))
    | None => mret None
    end.

Definition Open (o : OS) (r : nat) : M (result fileWrap) :=
  f ← deref r;
  w ← get;
  if (fs_open (fs w) <? 0)%Z then mret (Err ErrClosed)
  else if f_open f then mret (Err errFileOpen)
  else
    nm ← lift (name f);
    x ← os.Open o nm;
    match x with
    | inr e => mret (Err (oserr e))
    | inl fd =>
      set_open r true;;
      add_open 1;;
      mret (Ok (mkfileWrap fd r))
    end.

Definition Create (o : OS) (r : nat) : M (result fileWrap) :=
  f ← deref r;
  w ← get;
  if (fs_open (fs w) <? 0)%Z then mret (Err ErrClosed)
  else if f_open f then mret (Err errFileOpen)
  else
    nm ← lift (name f);
    x ← os.Create o nm;
    match x with
    | inr e => mret (Err (oserr e))
    | inl fd =>
      set_open r true;;
      add_open 1;;
      mret (Ok (mkfileWrap fd r))
    end.

Definition Remove (o : OS) (r : nat) : M (option error) :=
  f ← deref r;
  w ← get;
  if (fs_open (fs w) <? 0)%Z then mret (Some ErrClosed)
  else if f_open f then mret (Some errFileOpen)
  else
    nm ← lift (name f);
    err ← os.Remove o nm;
    match err with
    | Some e => log o 0 (Sprint_file "remove %s.%d: %v" f e);; mret (Some (oserr e))
    | None => mret None
    end.

End Methods.

(* ===================================================================== *)
(** ** Vocabulary of the statements *)
(* ===================================================================== *)

(** Digit lists: the string of a list of digit values in front of [acc],
    the number the digits denote after the digits already read, and the
    runes of the digits. *)
Fixpoint digits_string (ds : list N) (acc : string) : string :=
  match ds with
  | [] => acc
  | d :: ds' => String (fmt.digit_char d) (digits_string ds' acc)
  end.

Definition digits_value (ds : list N) (n : N) : N :=
  fold_left (fun a d => a * 10 + d) ds n.

Definition digit_runes (ds : list N) : list N := map (N.add 48) ds.

(** The decimal digits of [u], most significant first. *)
Fixpoint digits_of (fuel : nat) (u : N) : list N :=
  match fuel with
  | O => []
  | S fuel' =>
    if u <? 10 then [u] else digits_of fuel' (u / 10) ++ [u mod 10]
  end.

(** What may follow a number in the input: the end, or a rune that is not
    a digit. *)
Definition stops (rest : list N) : Prop :=
  match rest with
  | [] => True
  | r :: _ => fmt.isDigit r = false
  end.

(** The line of the log for [str] at [t], with [%0<wid>d] for the fields:
    widths 4, 2 and 4 for the date, 2, 2, 2 and 6 for the time. *)
Definition log_line (t : Time) (str : string) : string :=
  let buf := fmt.decimal_pad 4 (Z.to_N (year t)) in
  let buf := buf +:+ "/" in
  let buf := buf +:+ fmt.decimal_pad 2 (Z.to_N (month t)) in
  let buf := buf +:+ "/" in
  let buf := buf +:+ fmt.decimal_pad 4 (Z.to_N (day t)) in
  let buf := buf +:+ " " in
  let buf := buf +:+ fmt.decimal_pad 2 (Z.to_N (hour t)) in
  let buf := buf +:+ ":" in
  let buf := buf +:+ fmt.decimal_pad 2 (Z.to_N (min t)) in
  let buf := buf +:+ ":" in
  let buf := buf +:+ fmt.decimal_pad 2 (Z.to_N (sec t)) in
  let buf := buf +:+ "." in
  let buf := buf +:+ fmt.decimal_pad 6 (Z.to_N (Z.quot (Nanosecond t) 1000)) in
  let buf := buf +:+ " " in
  let buf := buf +:+ str in
  buf +:+ newline.

(** The world after [fs.log] wrote [line]. *)
Definition logged (fault : option nat) (line : string) (w : World) : World :=
  set_fs w (set_fs_logw (set_fs_buf (fs w) line)
              (logw_Write fault line (fs_logw (fs w)))).

(** A storage as [OpenFile] returns it, on an empty directory. *)
Definition fresh_storage : World :=
  mkWorld (mkfileStorage "db" true None (mklogFile EmptyString false)
             EmptyString 0 true)
    [] [] ∅ 0.

(** An operating system that fails nowhere, at 2012-11-05 10:04:05.000123. *)
Definition quiet : OS :=
  mkOS (fun _ => mkTime 2012 11 5 10 4 5 123000)
    None None None None None None None None (fun _ => None).

(** The same, but [os.Remove] fails. *)
Definition failing_remove : OS :=
  mkOS (clock quiet) None None None None None None (Some "permission denied"%string)
    None (fun _ => None).

(** The storage with the given directory and file objects; [n] of the
    objects are open. *)
Definition storage_with (d : gmap string string) (h : list file) (n : Z) : World :=
  set_fs (set_heap (set_dir fresh_storage d) h)
    (set_fs_open (fs fresh_storage) n).

(** How a [FileType] prints, for the examples. *)
Definition kind_text (t : FileType) : string :=
  match t with
  | TypeManifest => "manifest"
  | TypeJournal => "journal"
  | TypeTable => "table"
  | TypeOther => "<unknown>"
  end.

(** A storage whose pointer file CURRENT holds [content]. *)
Definition current_is (content : string) : World :=
  storage_with {[ "CURRENT"%string := content ]} [] 0.

(** Two [GetFile] calls for the table 1, and [Create] on the first of the
    two objects: the world this leaves, with one handle open. *)
Definition table_1_twice : World :=
  ((f1 ← GetFile 1 TypeTable; _ ← GetFile 1 TypeTable; Create quiet f1)
     fresh_storage).1.

(* ===================================================================== *)
(** ** Vocabulary of the further properties *)
(* ===================================================================== *)

(** A value a scan stored fits its operand. *)
Definition fits (v : fmt.value) : Prop :=
  match v with
  | fmt.Uint64 u => u < 2 ^ 64
  | fmt.Str _ => True
  end.

Local Open Scope Z_scope.

(** The time stamp of a log line: the fields as [uint]s, zero-padded, and
    the blank before the message. *)
Definition stamp (t : Time) : string :=
  fmt.decimal_pad 4 (Z.to_N (uint (year t))) +:+ "/"
  +:+ fmt.decimal_pad 2 (Z.to_N (uint (month t))) +:+ "/"
  +:+ fmt.decimal_pad 4 (Z.to_N (uint (day t))) +:+ " "
  +:+ fmt.decimal_pad 2 (Z.to_N (uint (hour t))) +:+ ":"
  +:+ fmt.decimal_pad 2 (Z.to_N (uint (min t))) +:+ ":"
  +:+ fmt.decimal_pad 2 (Z.to_N (uint (sec t))) +:+ "."
  +:+ fmt.decimal_pad 6 (Z.to_N (uint (Z.quot (Nanosecond t) 1000))) +:+ " ".

(** One for a flag that is set. *)
Definition bit (b : bool) : nat := if b then 1%nat else 0%nat.

(** The number of file objects whose open flag is set. *)
Fixpoint open_flags (h : list file) : nat :=
  match h with
  | [] => O
  | f :: h' => (bit (f_open f) + open_flags h')%nat
  end.

(** The accounting of open files: a closed storage has the count -1 and
    no file flagged open, an active one counts the flags. *)
Definition accounted (w : World) : Prop :=
  (fs_open (fs w) = -1 /\ open_flags (heap w) = O)
  \/ fs_open (fs w) = Z.of_nat (open_flags (heap w)).

(** The calls a user of the storage can make. *)
Inductive call :=
  | call_Lock
  | call_Release (lock : nat)
  | call_Log (str : string)
  | call_GetFile (num : N) (t : FileType)
  | call_GetFiles (wanted : FileType -> bool)
  | call_GetManifest
  | call_SetManifest (f : File)
  | call_Close
  | call_fileWrap_Close (fw : fileWrap)
  | call_Open (r : nat)
  | call_Create (r : nat)
  | call_Remove (r : nat).

(** The world after a call. *)
Definition after (FTS : FileType -> string) (o : OS) (c : call) (w : World)
  : World :=
  match c with
  | call_Lock => (Lock w).1
  | call_Release lock => (Release lock w).1
  | call_Log str => (Log o str w).1
  | call_GetFile num t => (GetFile num t w).1
  | call_GetFiles wanted => (GetFiles o wanted w).1
  | call_GetManifest => (GetManifest o w).1
  | call_SetManifest f => (SetManifest o f w).1
  | call_Close => (Close o w).1
  | call_fileWrap_Close fw => (fileWrap_Close FTS o fw w).1
  | call_Open r => (Open o r w).1
  | call_Create r => (Create o r w).1
  | call_Remove r => (Remove FTS o r w).1
  end.

(** The world after a sequence of calls, each with its operating system. *)
Fixpoint after_all (FTS : FileType -> string) (cs : list (OS * call))
    (w : World) : World :=
  match cs with
  | [] => w
  | (o, c) :: cs' => after_all FTS cs' (after FTS o c w)
  end.

(** A call that closes a handle of the file object [r]. *)
Definition closes (r : nat) (c : call) : Prop :=
  match c with
  | call_fileWrap_Close fw => fw_f fw = r
  | _ => False
  end.

(** A call keeps a relation between the world before and after. *)
Definition preserves {A} (P : World -> World -> Prop) (m : M A) : Prop :=
  forall w, P w (m w).1.

(** The count, the flags of the files there are, and the flags of new
    files: the count is the same, the heap has grown by files that are
    not open. *)
Definition steady (w w' : World) : Prop :=
  fs_open (fs w') = fs_open (fs w)
  /\ exists extra,
       heap w' = heap w ++ extra /\ Forall (fun f => f_open f = false) extra.

(** The log has grown, or is as it was. *)
Definition log_grows (w w' : World) : Prop :=
  exists s, lw_written (fs_logw (fs w'))
            = lw_written (fs_logw (fs w)) +:+ s.

(** A step that leaves the count, the heap and the log alone. *)
Definition untouched (w w' : World) : Prop :=
  fs_open (fs w') = fs_open (fs w) /\ heap w' = heap w
  /\ fs_logw (fs w') = fs_logw (fs w).

(** The world after: Create, Close, Create again, all on file 0. *)
Definition reopened : World :=
  ((h1 ← Create quiet 0;
    match h1 with
    | Ok h1 => fileWrap_Close kind_text quiet h1;; Create quiet 0
    | Err e => mret (Err e)
    end) (storage_with ∅ [mkfile 3 TypeTable false] 0)).1.

(** The files [GetFiles] makes for a list of names: one for each name
    that parses to a wanted kind, in the order of the names. *)
Fixpoint listed (wanted : FileType -> bool) (fnn : list string) : list file :=
  match fnn with
  | [] => []
  | fn :: fnn' =>
    let '(f, ok) := parse (mkfile 0 TypeOther false) fn in
    if ok && wanted (f_t f) then f :: listed wanted fnn'
    else listed wanted fnn'
  end.

Local Close Scope Z_scope.

(* ===================================================================== *)
(** ** Printing and scanning numbers *)
(* ===================================================================== *)

Local Arguments fmt.decimal : simpl never.
Local Arguments fmt.decimal_pad : simpl never.
Local Arguments fmt.decimal_int : simpl never.

Lemma append_String c s1 s2 : String c s1 +:+ s2 = String c (s1 +:+ s2).
Proof. reflexivity. Qed.

Lemma append_Empty s : EmptyString +:+ s = s.
Proof. reflexivity. Qed.

Lemma digits_string_app ds1 ds2 acc :
  digits_string (ds1 ++ ds2) acc = digits_string ds1 (digits_string ds2 acc).
Proof. induction ds1 as [|d ds1 IH]; simpl; [done | by rewrite IH]. Qed.

Lemma digits_string_append ds s1 s2 :
  digits_string ds s1 +:+ s2 = digits_string ds (s1 +:+ s2).
Proof.
  induction ds as [|d ds IH]; simpl; [done |].
  by rewrite append_String, IH.
Qed.

Lemma digits_string_length ds :
  String.length (digits_string ds EmptyString) = length ds.
Proof. induction ds as [|d ds IH]; simpl; [done | by rewrite IH]. Qed.

Lemma digits_value_app ds1 ds2 n :
  digits_value (ds1 ++ ds2) n = digits_value ds2 (digits_value ds1 n).
Proof. unfold digits_value. by rewrite fold_left_app. Qed.

Lemma digits_value_ge ds n : n <= digits_value ds n.
Proof.
  revert n. induction ds as [|d ds IH]; intros n; simpl; [lia |].
  etransitivity; [| apply IH]. lia.
Qed.

Lemma digits_value_zeros k n : n = 0 -> digits_value (replicate k 0) n = 0.
Proof. intros ->. induction k as [|k IH]; simpl; [done | exact IH]. Qed.

(** [fmt_digits] writes the decimal digits of [u], given fuel for them. *)
Lemma fmt_digits_spec fuel u acc :
  (0 < fuel)%nat -> u < 2 ^ N.of_nat fuel ->
  exists ds, ds <> [] /\ Forall (fun d => d < 10) ds
    /\ fmt.fmt_digits fuel u acc = digits_string ds acc
    /\ digits_value ds 0 = u.
Proof.
  revert u acc. induction fuel as [|fuel IH]; intros u acc Hpos Hlt; [lia |].
  simpl. destruct (N.ltb_spec u 10) as [Hu | Hu].
  - exists [u]. split_and!; [done | by constructor | done | done].
  - assert (Hf : (0 < fuel)%nat).
    { destruct fuel; [| lia]. simpl in Hlt. lia. }
    assert (Hq : u / 10 < 2 ^ N.of_nat fuel).
    { replace (N.of_nat (S fuel)) with (N.succ (N.of_nat fuel)) in Hlt by lia.
      rewrite N.pow_succ_r' in Hlt.
      apply N.Div0.div_lt_upper_bound. lia. }
    destruct (IH (u / 10) (String (fmt.digit_char (u mod 10)) acc) Hf Hq)
      as (ds & Hne & Hall & Heq & Hval).
    exists (ds ++ [u mod 10]). split_and!.
    + destruct ds; done.
    + apply Forall_app. split; [done |]. constructor; [| done].
      apply N.mod_lt. lia.
    + by rewrite Heq, digits_string_app.
    + rewrite digits_value_app, Hval. simpl.
      pose proof (N.div_mod u 10). lia.
Qed.

Lemma decimal_spec u :
  exists ds, ds <> [] /\ Forall (fun d => d < 10) ds
    /\ fmt.decimal u = digits_string ds EmptyString
    /\ digits_value ds 0 = u.
Proof.
  apply fmt_digits_spec; [lia |].
  destruct (N.eq_dec u 0) as [-> | Hu]; [done |].
  replace (N.of_nat (S (N.to_nat (N.log2 u)))) with (N.succ (N.log2 u)) by lia.
  apply N.log2_spec. lia.
Qed.

Lemma zeros_spec k s : fmt.zeros k s = digits_string (replicate k 0) s.
Proof. induction k as [|k IH]; simpl; [done | by rewrite IH]. Qed.

(** [%0<wid>d]: at least [wid] digits, and they denote [u]. *)
Lemma decimal_pad_spec wid u :
  exists ds, ds <> [] /\ Forall (fun d => d < 10) ds
    /\ fmt.decimal_pad wid u = digits_string ds EmptyString
    /\ digits_value ds 0 = u
    /\ (wid <= length ds)%nat
    /\ (length ds = max wid (String.length (fmt.decimal u)))%nat.
Proof.
  destruct (decimal_spec u) as (ds & Hne & Hall & Heq & Hval).
  unfold fmt.decimal_pad. rewrite Heq, digits_string_length, zeros_spec.
  exists (replicate (wid - length ds) 0 ++ ds). split_and!.
  - destruct ds; [done |]. by destruct (replicate _ _).
  - apply Forall_app. split; [| done]. apply Forall_replicate. lia.
  - by rewrite digits_string_app.
  - rewrite digits_value_app, digits_value_zeros; done.
  - rewrite length_app, length_replicate. lia.
  - rewrite length_app, length_replicate. lia.
Qed.

Lemma N_of_digit_char d : d < 10 -> N_of_ascii (fmt.digit_char d) = 48 + d.
Proof. intros Hd. unfold fmt.digit_char. apply N_ascii_embedding. lia. Qed.

Lemma runes_ascii c s :
  N_of_ascii c < 128 -> utf8.runes (String c s) = N_of_ascii c :: utf8.runes s.
Proof.
  intros Hc. cbn [utf8.runes].
  destruct (N.ltb_spec (N_of_ascii c) 128) as [_ | Hge]; [done | lia].
Qed.

Lemma runes_digits ds rest :
  Forall (fun d => d < 10) ds ->
  utf8.runes (digits_string ds rest) = digit_runes ds ++ utf8.runes rest.
Proof.
  induction 1 as [|d ds Hd _ IH]; [done |].
  cbn [digits_string digit_runes map app].
  rewrite runes_ascii; rewrite N_of_digit_char by done; [| lia].
  by rewrite IH.
Qed.

Lemma digit_rune_class d :
  d < 10 ->
  fmt.isDigit (48 + d) = true /\ fmt.isSpace (48 + d) = false
  /\ (48 + d =? 13) = false /\ (48 + d =? 10) = false.
Proof.
  intros Hd. unfold fmt.isDigit, fmt.isSpace, utf8.between.
  split_and!;
    repeat match goal with
    | |- context [?a <=? ?b] => destruct (N.leb_spec a b); try lia
    | |- context [?a =? ?b] => destruct (N.eqb_spec a b); try lia
    end; done.
Qed.

Lemma accept_digits_spec ds rest :
  Forall (fun d => d < 10) ds -> stops rest ->
  fmt.accept_digits (digit_runes ds ++ rest) = (digit_runes ds, rest).
Proof.
  intros Hall Hrest. induction Hall as [|d ds Hd _ IH].
  - destruct rest as [|r rest]; [done |]. simpl in *. by rewrite Hrest.
  - cbn [digit_runes map app fmt.accept_digits].
    destruct (digit_rune_class d Hd) as (-> & _).
    fold (digit_runes ds). by rewrite IH.
Qed.

Lemma ParseUint_loop_spec ds n :
  Forall (fun d => d < 10) ds -> digits_value ds n <= strconv.maxUint64 ->
  strconv.ParseUint_loop (digit_runes ds) n = Some (digits_value ds n).
Proof.
  intros Hall. revert n. induction Hall as [|d ds Hd _ IH]; intros n Hle; [done |].
  cbn [digit_runes map strconv.ParseUint_loop]. fold (digit_runes ds).
  change (digits_value (d :: ds) n) with (digits_value ds (n * 10 + d)) in *.
  pose proof (digits_value_ge ds (n * 10 + d)) as Hge.
  replace (48 + d - 48) with d by lia.
  assert (Hmax : strconv.maxUint64 = 18446744073709551615) by reflexivity.
  assert (Hcut : strconv.maxUint64 / 10 + 1 = 1844674407370955162) by reflexivity.
  rewrite Hcut.
  destruct (N.leb_spec 1844674407370955162 n); [lia |].
  destruct (N.ltb_spec strconv.maxUint64 (n * 10 + d)); [lia |].
  by apply IH.
Qed.

Lemma ParseUint_digits ds :
  ds <> [] -> Forall (fun d => d < 10) ds -> digits_value ds 0 < 2 ^ 64 ->
  strconv.ParseUint (digit_runes ds) = Some (digits_value ds 0).
Proof.
  intros Hne Hall Hval. unfold strconv.ParseUint.
  destruct ds as [|d ds]; [done |].
  change (digit_runes (d :: ds)) with (48 + d :: digit_runes ds) at 1.
  cbv beta iota. change (48 + d :: digit_runes ds) with (digit_runes (d :: ds)).
  rewrite ParseUint_loop_spec; [done | done |].
  assert (strconv.maxUint64 = 2 ^ 64 - 1) by reflexivity. lia.
Qed.

Lemma scanUint_digits ds rest :
  ds <> [] -> Forall (fun d => d < 10) ds ->
  digits_value ds 0 < 2 ^ 64 -> stops rest ->
  fmt.scanUint (digit_runes ds ++ rest) = fmt.Scanned (digits_value ds 0) rest.
Proof.
  intros Hne Hall Hval Hrest. unfold fmt.scanUint.
  pose proof (ParseUint_digits ds Hne Hall Hval) as Hparse.
  destruct ds as [|d ds]; [done |].
  pose proof (Forall_inv Hall) as Hd.
  destruct (digit_rune_class d Hd) as (Hdig & Hsp & H13 & H10).
  cbn [digit_runes map app fmt.SkipSpace]. rewrite H13, H10, Hsp. cbn [andb].
  rewrite Hdig.
  change (48 + d :: map (N.add 48) ds ++ rest) with (digit_runes (d :: ds) ++ rest).
  rewrite accept_digits_spec by done. by rewrite Hparse.
Qed.

Lemma items_journal :
  fmt.items (utf8.runes "%d.%s") = Some [fmt.Verb_d; fmt.Lit 46; fmt.Verb_s].
Proof. reflexivity. Qed.

Lemma items_manifest :
  fmt.items (utf8.runes "MANIFEST-%d%s")
  = Some [fmt.Lit 77; fmt.Lit 65; fmt.Lit 78; fmt.Lit 73; fmt.Lit 70;
          fmt.Lit 69; fmt.Lit 83; fmt.Lit 84; fmt.Lit 45;
          fmt.Verb_d; fmt.Verb_s].
Proof. reflexivity. Qed.

(** The first scan of [parse] on digits followed by [suffix]. *)
Lemma Sscanf_suffixed ds (suffix : string) (tail : string) :
  ds <> [] -> Forall (fun d => d < 10) ds -> digits_value ds 0 < 2 ^ 64 ->
  stops (utf8.runes suffix) ->
  fmt.doScanf [fmt.Lit 46; fmt.Verb_s] (utf8.runes suffix)
    [fmt.Uint64 (digits_value ds 0)]
  = ([fmt.Uint64 (digits_value ds 0); fmt.Str tail], None) ->
  fmt.Sscanf (digits_string ds suffix) "%d.%s"
  = {| fmt.stored := [fmt.Uint64 (digits_value ds 0); fmt.Str tail];
       fmt.err := None |}.
Proof.
  intros Hne Hall Hval Hstop Hrest. unfold fmt.Sscanf.
  rewrite items_journal, runes_digits by done.
  cbn [fmt.doScanf]. rewrite scanUint_digits by done.
  cbn [fmt.doScanf app] in Hrest |- *. by rewrite Hrest.
Qed.

Lemma Sscanf_manifest_prefix s :
  fmt.err (fmt.Sscanf ("MANIFEST-" +:+ s) "%d.%s") = Some fmt.expected_integer.
Proof. reflexivity. Qed.

(** The second scan of [parse] on a manifest name. *)
Lemma Sscanf_manifest ds :
  ds <> [] -> Forall (fun d => d < 10) ds -> digits_value ds 0 < 2 ^ 64 ->
  fmt.Sscanf ("MANIFEST-" +:+ digits_string ds EmptyString) "MANIFEST-%d%s"
  = {| fmt.stored := [fmt.Uint64 (digits_value ds 0)];
       fmt.err := Some fmt.EOF |}.
Proof.
  intros Hne Hall Hval. unfold fmt.Sscanf. rewrite items_manifest.
  change (utf8.runes ("MANIFEST-" +:+ digits_string ds EmptyString))
    with (77 :: 65 :: 78 :: 73 :: 70 :: 69 :: 83 :: 84 :: 45
          :: utf8.runes (digits_string ds EmptyString)).
  rewrite runes_digits by done.
  cbn -[fmt.scanUint fmt.convertString].
  rewrite scanUint_digits by done. reflexivity.
Qed.

(* ===================================================================== *)
(** ** The name codec *)
(* ===================================================================== *)

(** [parse] reads back what [name] wrote. *)
Lemma parse_name (t : FileType) (num : N) :
  t <> TypeOther -> num < 2 ^ 64 ->
  exists nm,
    name (mkfile num t false) = Return nm
    /\ parse (mkfile 0 TypeOther false) nm = (mkfile num t false, true).
Proof.
  intros Ht Hnum.
  destruct (decimal_pad_spec 6 num) as (ds & Hne & Hall & Heq & Hval & _).
  assert (Hv : digits_value ds 0 < 2 ^ 64) by (by rewrite Hval).
  destruct t; [| | | done]; eexists; (split; [reflexivity |]);
    unfold parse; cbn [f_num f_t f_open]; rewrite Heq.
  - rewrite Sscanf_manifest_prefix, Sscanf_manifest by done.
    cbn. by rewrite Hval.
  - rewrite digits_string_append, append_Empty.
    rewrite (Sscanf_suffixed ds ".log" "log") by done.
    cbn. by rewrite Hval.
  - rewrite digits_string_append, append_Empty.
    rewrite (Sscanf_suffixed ds ".sst" "sst") by done.
    cbn. by rewrite Hval.
Qed.

(** The digits [fmtInteger] lays down for a number that is not zero
    start with a digit that is not zero. *)
Lemma fmt_digits_lead fuel u acc :
  (0 < fuel)%nat -> u < 2 ^ N.of_nat fuel -> 0 < u ->
  exists d ds, 0 < d < 10 /\ Forall (fun d => d < 10) ds
    /\ fmt.fmt_digits fuel u acc = digits_string (d :: ds) acc
    /\ digits_value (d :: ds) 0 = u.
Proof.
  revert u acc. induction fuel as [|fuel IH]; intros u acc Hpos Hlt Hu; [lia |].
  cbn [fmt.fmt_digits]. destruct (N.ltb_spec u 10) as [Hs | Hb].
  - exists u, []. split_and!; [lia | lia | done | done | done].
  - assert (Hf : (0 < fuel)%nat).
    { destruct fuel; [| lia]. simpl in Hlt. lia. }
    assert (Hq : u / 10 < 2 ^ N.of_nat fuel).
    { replace (N.of_nat (S fuel)) with (N.succ (N.of_nat fuel)) in Hlt by lia.
      rewrite N.pow_succ_r' in Hlt.
      apply N.Div0.div_lt_upper_bound. lia. }
    assert (Hq0 : 0 < u / 10).
    { apply N.div_str_pos. lia. }
    destruct (IH (u / 10) (String (fmt.digit_char (u mod 10)) acc) Hf Hq Hq0)
      as (d & ds & Hd & Hall & Heq & Hval).
    exists d, (ds ++ [u mod 10]). split_and!; [lia | lia | | |].
    + apply Forall_app. split; [done |]. constructor; [| done].
      apply N.mod_lt. lia.
    + rewrite Heq. change (d :: ds ++ [u mod 10]) with ((d :: ds) ++ [u mod 10]).
      by rewrite digits_string_app.
    + change (d :: ds ++ [u mod 10]) with ((d :: ds) ++ [u mod 10]).
      rewrite digits_value_app, Hval. cbn.
      pose proof (N.div_mod u 10). lia.
Qed.

(** [%0<wid>d] digit by digit: at least [wid] digits that denote [u], and
    beyond the width no zero in front. *)
Lemma decimal_pad_lead wid u :
  exists ds, Forall (fun d => d < 10) ds
    /\ fmt.decimal_pad wid u = digits_string ds EmptyString
    /\ digits_value ds 0 = u
    /\ (wid <= length ds)%nat
    /\ ((Nat.max wid 1 < length ds)%nat ->
        exists d ds', ds = d :: ds' /\ 0 < d).
Proof.
  unfold fmt.decimal_pad. destruct (N.eq_dec u 0) as [-> | Hne].
  - exists (replicate (wid - 1) 0 ++ [0]). split_and!.
    + apply Forall_app. split; [apply Forall_replicate; lia | by constructor].
    + by rewrite zeros_spec, digits_string_app.
    + rewrite digits_value_app, digits_value_zeros; done.
    + rewrite length_app, length_replicate. cbn. lia.
    + rewrite length_app, length_replicate. cbn. lia.
  - destruct (fmt_digits_lead (S (N.to_nat (N.log2 u))) u EmptyString)
      as (d & ds & Hd & Hall & Heq & Hval); [lia | | lia |].
    { replace (N.of_nat (S (N.to_nat (N.log2 u)))) with (N.succ (N.log2 u))
        by lia.
      apply N.log2_spec. lia. }
    fold (fmt.decimal u) in Heq. rewrite Heq, digits_string_length, zeros_spec.
    exists (replicate (wid - length (d :: ds)) 0 ++ d :: ds). split_and!.
    + apply Forall_app. split; [apply Forall_replicate; lia |].
      constructor; [lia | done].
    + by rewrite digits_string_app.
    + rewrite digits_value_app, digits_value_zeros; done.
    + rewrite length_app, length_replicate. lia.
    + rewrite length_app, length_replicate. intros Hlong.
      replace (wid - length (d :: ds))%nat with O by lia.
      exists d, ds. split; [done | lia].
Qed.

(** C3: for every kind among Journal, Table and Manifest and every uint64
    sequence number, decoding the encoded name gives back the descriptor.
    The name is the digits followed by [.log] or [.sst], or [MANIFEST-]
    followed by the digits; the digits denote the number itself, none is
    cut off; they are at least 6, and when they are more than 6 the
    first is not a zero: the padding fills up to 6 and no further. *)
Theorem name_parse_roundtrip (t : FileType) (num : N) :
  t <> TypeOther -> num < 2 ^ 64 ->
  exists nm ds,
    name (mkfile num t false) = Return nm
    /\ decode nm = Some (t, num)
    /\ nm = match t with
            | TypeManifest => "MANIFEST-" +:+ digits_string ds EmptyString
            | TypeJournal => digits_string ds EmptyString +:+ ".log"
            | _ => digits_string ds EmptyString +:+ ".sst"
            end
    /\ Forall (fun d => d < 10) ds
    /\ digits_value ds 0 = num
    /\ (6 <= length ds)%nat
    /\ ((6 < length ds)%nat -> exists d ds', ds = d :: ds' /\ 0 < d).
Proof.
  intros Ht Hnum.
  destruct (parse_name t num Ht Hnum) as (nm & Hnm & Hparse).
  destruct (decimal_pad_lead 6 num) as (ds & Hall & Heq & Hval & Hlen & Hlead).
  exists nm, ds. split_and!.
  - done.
  - unfold decode. by rewrite Hparse.
  - unfold name in Hnm. cbn [f_t f_num] in Hnm. rewrite Heq in Hnm.
    destruct t; [| | | done]; by injection Hnm as <-.
  - done.
  - done.
  - done.
  - intros Hlong. apply Hlead. lia.
Qed.

Lemma name_parse_roundtrip_witness :
  exists nm ds,
    name (mkfile 1234567 TypeTable false) = Return nm
    /\ decode nm = Some (TypeTable, 1234567)
    /\ nm = digits_string ds EmptyString +:+ ".sst"
    /\ Forall (fun d => d < 10) ds
    /\ digits_value ds 0 = 1234567
    /\ (6 <= length ds)%nat
    /\ ((6 < length ds)%nat -> exists d ds', ds = d :: ds' /\ 0 < d).
Proof.
  apply (name_parse_roundtrip TypeTable 1234567); [discriminate | reflexivity].
Defined.

(** The names the spec lists as foreign are no match. *)
Lemma decode_foreign_names :
  decode "foo.txt" = None /\ decode "123" = None
  /\ decode "MANIFEST" = None /\ decode ".log" = None
  /\ decode "000001.logx" = None /\ decode "MANIFEST-000001x" = None.
Proof. by vm_compute. Qed.

(** C7: [decode] takes names that match none of the three patterns: a
    journal name followed by a space and more text, a table name after a
    leading space, a manifest name followed by a space or by a newline and
    more text. *)
Theorem decode_accepts_trailing_garbage :
  decode "000001.log x" = Some (TypeJournal, 1)
  /\ decode " 000001.sst" = Some (TypeTable, 1)
  /\ decode "MANIFEST-000001 " = Some (TypeManifest, 1)
  /\ decode ("MANIFEST-000001" +:+ newline +:+ "x") = Some (TypeManifest, 1).
Proof. by vm_compute. Qed.

(** C8: asked for the name of a descriptor whose kind is none of Journal,
    Table and Manifest, [name] panics, whatever the sequence number; so do
    [Open], [Create] and [Remove] on such a descriptor of an active
    storage, which go through [name]: no error value is returned. *)
Theorem name_other_kind_panics (FTS : FileType -> string) (t : FileType)
    (num : N) (opened : bool) :
  t <> TypeManifest -> t <> TypeJournal -> t <> TypeTable ->
  name (mkfile num t opened) = Panic "invalid file type"
  /\ forall o w r,
       (0 <= fs_open (fs w))%Z -> heap w !! r = Some (mkfile num t false) ->
       Open o r w = (w, Panic "invalid file type")
       /\ Create o r w = (w, Panic "invalid file type")
       /\ Remove FTS o r w = (w, Panic "invalid file type").
Proof.
  intros Hm Hj Ht. destruct t; [done | done | done |].
  split; [reflexivity |]. intros o w r Ha Hf.
  assert (Hlt : (fs_open (fs w) <? 0)%Z = false) by (apply Z.ltb_ge; lia).
  unfold Open, Create, Remove, mbind, M_bind, bind, get, deref, lift.
  by rewrite Hf, Hlt.
Qed.

Lemma name_other_kind_panics_witness :
  TypeOther <> TypeManifest /\ TypeOther <> TypeJournal
  /\ TypeOther <> TypeTable
  /\ name (mkfile 42 TypeOther false) = Panic "invalid file type".
Proof.
  split; [discriminate |]. split; [discriminate |]. split; [discriminate |].
  apply (name_other_kind_panics kind_text TypeOther 42 false); discriminate.
Defined.

(* ===================================================================== *)
(** ** The diagnostic log *)
(* ===================================================================== *)

Local Open Scope Z_scope.

Ltac unfold_M :=
  unfold mbind, M_bind, bind, mret, M_ret, ret, get, modify, lift, panic,
    deref, set_open, add_open, new_file in *.

Lemma int_small z : - 2 ^ 63 <= z < 2 ^ 63 -> int z = z.
Proof.
  intros Hz. unfold int.
  rewrite Z.mod_small; lia.
Qed.

(** One below the least [int] is the greatest. *)
Lemma int_wrap_min : int (- 2 ^ 63 - 1) = 2 ^ 63 - 1.
Proof. reflexivity. Qed.

Lemma uint_range i : 0 <= uint i < 2 ^ 64.
Proof. unfold uint. apply Z.mod_pos_bound. lia. Qed.

(** [itoa] stays inside its 32 bytes for a width of at most 32 that does
    not wrap: a [uint] has no more than 20 digits. *)
Lemma itoa_loop_returns bp u wid acc :
  0 <= u < 10 ^ Z.of_nat bp ->
  - 2 ^ 63 + Z.of_nat bp <= wid <= Z.of_nat bp -> Z.of_nat bp < 2 ^ 63 ->
  exists s, itoa_loop bp u wid acc = Return s.
Proof.
  revert u wid acc. induction bp as [|bp IH]; intros u wid acc Hu Hwid Hbp.
  - simpl in *. assert (u = 0) as -> by lia.
    destruct (Z.ltb_spec 0 wid); [lia |]. by eexists.
  - cbn [itoa_loop]. destruct ((0 <? u) || (0 <? wid)); [| by eexists].
    rewrite int_small by lia.
    apply IH; [| lia | lia].
    replace (Z.of_nat (S bp)) with (Z.succ (Z.of_nat bp)) in Hu by lia.
    rewrite Z.pow_succ_r in Hu by lia.
    split; [apply Z.div_pos; lia |].
    apply Z.div_lt_upper_bound; lia.
Qed.

Lemma itoa_returns buf i wid :
  - 2 ^ 63 + 32 <= wid <= 32 -> exists s, itoa buf i wid = Return s.
Proof.
  intros Hwid. unfold itoa.
  destruct ((uint i =? 0) && (wid <=? 1)); [by eexists |].
  destruct (itoa_loop_returns 32 (uint i) wid EmptyString) as [s ->];
    [| cbn; lia | by cbn | by eexists].
  pose proof (uint_range i). cbn. lia.
Qed.

(** [doLog] never panics, whatever the clock shows. *)
Lemma doLog_buf_returns t str : exists line, doLog_buf t str = Return line.
Proof.
  unfold doLog_buf.
  repeat match goal with
  | |- context [itoa ?b ?i ?wid] =>
    let s := fresh "s" in
    destruct (itoa_returns b i wid) as [s ->]; [lia |]; cbn [bind_outcome]
  end.
  by eexists.
Qed.

Lemma log_spec o k str w :
  exists line, doLog_buf (clock o k) str = Return line
    /\ log o k str w = (logged (fault_logw o k) line w, Return tt).
Proof.
  destruct (doLog_buf_returns (clock o k) str) as [line Hline].
  exists line. split; [done |].
  unfold log, doLog. unfold_M. by rewrite Hline.
Qed.

Ltac step_log :=
  match goal with
  | |- context [log ?o ?k ?m ?w'] =>
    let line := fresh "line" in
    destruct (log_spec o k m w') as (line & _ & ->)
  end.

Lemma fmt_digits_digits_of fuel u acc :
  fmt.fmt_digits fuel u acc = digits_string (digits_of fuel u) acc.
Proof.
  revert u acc. induction fuel as [|fuel IH]; intros u acc; [done |].
  cbn [fmt.fmt_digits digits_of]. destruct (u <? 10)%N; [done |].
  by rewrite IH, digits_string_app.
Qed.

Lemma zeros_shift k acc :
  fmt.zeros (S k) acc = fmt.zeros k (String "0"%char acc).
Proof. induction k as [|k IH]; [done |]. cbn [fmt.zeros] in *. by rewrite IH. Qed.

Lemma itoa_loop_zero bp wid acc :
  wid <= Z.of_nat bp -> Z.of_nat bp < 2 ^ 63 ->
  itoa_loop bp 0 wid acc = Return (fmt.zeros (Z.to_nat wid) acc).
Proof.
  revert wid acc. induction bp as [|bp IH]; intros wid acc Hwid Hbp.
  - cbn [itoa_loop]. destruct (Z.ltb_spec 0 wid); [lia |].
    cbn. by replace (Z.to_nat wid) with O by lia.
  - cbn [itoa_loop]. destruct (Z.ltb_spec 0 wid) as [Hpos | Hneg]; cbn [orb Z.ltb Z.compare].
    + change (0 / 10) with 0. rewrite int_small by lia. rewrite IH by lia.
      replace (Z.to_nat wid) with (S (Z.to_nat (wid - 1))) by lia.
      by rewrite zeros_shift.
    + by replace (Z.to_nat wid) with O by lia.
Qed.

Lemma itoa_digit u :
  0 <= u ->
  ascii_of_N (Z.to_N (u mod 10 + 48)) = fmt.digit_char (Z.to_N u mod 10).
Proof.
  intros Hu. unfold fmt.digit_char. f_equal.
  pose proof (Z.mod_pos_bound u 10).
  rewrite Z2N.inj_add by lia. rewrite Z2N.inj_mod by lia.
  change (Z.to_N 10) with 10%N. change (Z.to_N 48) with 48%N. lia.
Qed.

Lemma digits_of_length_le fuel u : (length (digits_of fuel u) <= fuel)%nat.
Proof.
  revert u. induction fuel as [|fuel IH]; intros u; cbn [digits_of]; [done |].
  destruct (u <? 10)%N; [cbn; lia |].
  rewrite length_app. cbn [length]. specialize (IH (u / 10)%N). lia.
Qed.

(** The loop on a number that is not zero returns its digits, padded, as
    long as the buffer holds them and no [wid--] wraps: the loop takes
    one from [wid] for every digit. *)
Lemma itoa_loop_pos bp u wid acc fuel :
  1 <= u < 10 ^ Z.of_nat bp -> wid <= Z.of_nat bp -> Z.of_nat bp < 2 ^ 63 ->
  (0 < fuel)%nat -> (Z.to_N u < 2 ^ N.of_nat fuel)%N ->
  - 2 ^ 63 + Z.of_nat (length (digits_of fuel (Z.to_N u))) <= wid ->
  itoa_loop bp u wid acc
  = Return (digits_string
              (replicate (Z.to_nat wid - length (digits_of fuel (Z.to_N u))) 0%N
               ++ digits_of fuel (Z.to_N u)) acc).
Proof.
  revert u wid acc fuel.
  induction bp as [|bp IH]; intros u wid acc fuel Hu Hwid Hbp Hfuel Hlt Hlow.
  { simpl in Hu. lia. }
  cbn [itoa_loop]. destruct (Z.ltb_spec 0 u) as [_ |]; [| lia]. cbn [orb].
  rewrite itoa_digit by lia.
  destruct fuel as [|fuel]; [lia |]. cbn [digits_of] in Hlow |- *.
  replace (Z.of_nat (S bp)) with (Z.succ (Z.of_nat bp)) in Hu by lia.
  rewrite Z.pow_succ_r in Hu by lia.
  destruct (N.ltb_spec (Z.to_N u) 10) as [Hsmall | Hbig].
  - cbn [length] in Hlow. rewrite int_small by lia.
    rewrite Z.div_small by lia. rewrite itoa_loop_zero by lia.
    rewrite N.mod_small by lia.
    rewrite digits_string_app, <- zeros_spec. cbn [length digits_string].
    by replace (Z.to_nat (wid - 1)) with (Z.to_nat wid - 1)%nat by lia.
  - rewrite length_app in Hlow. cbn [length] in Hlow.
    rewrite int_small by lia.
    assert (Hq : 1 <= u / 10 < 10 ^ Z.of_nat bp).
    { split; [apply Z.div_le_lower_bound; lia |].
      apply Z.div_lt_upper_bound; lia. }
    assert (Hf : (0 < fuel)%nat).
    { destruct fuel; [| lia]. simpl in Hlt. lia. }
    assert (Hq2 : (Z.to_N (u / 10) < 2 ^ N.of_nat fuel)%N).
    { rewrite Z2N.inj_div by lia. change (Z.to_N 10) with 10%N.
      replace (N.of_nat (S fuel)) with (N.succ (N.of_nat fuel)) in Hlt by lia.
      rewrite N.pow_succ_r' in Hlt.
      apply N.Div0.div_lt_upper_bound. lia. }
    assert (Hlow' : - 2 ^ 63
                    + Z.of_nat (length (digits_of fuel (Z.to_N (u / 10))))
                    <= wid - 1).
    { rewrite Z2N.inj_div by lia. change (Z.to_N 10) with 10%N. lia. }
    rewrite (IH (u / 10) (wid - 1) _ fuel) by (done || lia).
    rewrite Z2N.inj_div by lia. change (Z.to_N 10) with 10%N.
    rewrite length_app. cbn [length].
    rewrite !digits_string_app. cbn [digits_string].
    do 3 f_equal. lia.
Qed.

(** A width wider than what is left of the buffer runs off it. *)
Lemma itoa_loop_panics bp u wid acc :
  Z.of_nat bp < wid < 2 ^ 63 ->
  itoa_loop bp u wid acc = Panic "index out of range [-1]".
Proof.
  revert u wid acc. induction bp as [|bp IH]; intros u wid acc Hwid;
    cbn [itoa_loop]; destruct (Z.ltb_spec 0 wid); try lia;
    rewrite orb_true_r; [done |].
  rewrite int_small by lia. apply IH. lia.
Qed.

(** A width so low that [wid--] wraps before the digits are done runs off
    the buffer as well: after the wrap the width is the greatest [int]. *)
Lemma itoa_loop_wraps bp u wid acc fuel :
  1 <= u -> (0 < fuel)%nat -> (Z.to_N u < 2 ^ N.of_nat fuel)%N ->
  Z.of_nat bp < 2 ^ 63 -> wid < 2 ^ 63 ->
  - 2 ^ 63 <= wid < - 2 ^ 63 + Z.of_nat (length (digits_of fuel (Z.to_N u))) ->
  itoa_loop bp u wid acc = Panic "index out of range [-1]".
Proof.
  revert u wid acc fuel.
  induction bp as [|bp IH]; intros u wid acc fuel Hu Hfuel Hlt Hbp Hmax Hwid;
    cbn [itoa_loop]; (destruct (Z.ltb_spec 0 u) as [_ |]; [| lia]);
    cbn [orb]; [done |].
  destruct (Z.eq_dec wid (- 2 ^ 63)) as [-> | Hne].
  { rewrite int_wrap_min. apply itoa_loop_panics. lia. }
  destruct fuel as [|fuel]; [lia |]. cbn [digits_of] in Hwid.
  destruct (N.ltb_spec (Z.to_N u) 10) as [Hsmall | Hbig].
  { cbn [length] in Hwid. lia. }
  rewrite length_app in Hwid. cbn [length] in Hwid.
  rewrite int_small by lia.
  assert (Hf : (0 < fuel)%nat).
  { destruct fuel; [| lia]. simpl in Hlt. lia. }
  apply (IH (u / 10) (wid - 1) _ fuel); [| done | | lia | lia |].
  - apply Z.div_le_lower_bound; lia.
  - rewrite Z2N.inj_div by lia. change (Z.to_N 10) with 10%N.
    replace (N.of_nat (S fuel)) with (N.succ (N.of_nat fuel)) in Hlt by lia.
    rewrite N.pow_succ_r' in Hlt.
    apply N.Div0.div_lt_upper_bound. lia.
  - rewrite Z2N.inj_div by lia. change (Z.to_N 10) with 10%N. lia.
Qed.

(** The number of digits of [%d]. *)
Lemma decimal_length u :
  String.length (fmt.decimal u)
  = length (digits_of (S (N.to_nat (N.log2 u))) u).
Proof.
  unfold fmt.decimal. by rewrite fmt_digits_digits_of, digits_string_length.
Qed.

(** [itoa] within its buffer and without a wrap of [wid]: the digits of
    [uint(i)], padded. *)
Lemma itoa_exact buf i wid :
  wid <= 32 ->
  uint i = 0
  \/ - 2 ^ 63 + Z.of_nat (String.length (fmt.decimal (Z.to_N (uint i)))) <= wid ->
  itoa buf i wid
  = Return (buf +:+ fmt.decimal_pad (Z.to_nat wid) (Z.to_N (uint i))).
Proof.
  intros Hwid Hlow. pose proof (uint_range i) as Hu. unfold itoa.
  unfold fmt.decimal_pad.
  destruct (Z.eqb_spec (uint i) 0) as [-> | Hne]; cbn [andb].
  - unfold fmt.decimal. destruct (Z.leb_spec wid 1).
    + by replace (Z.to_nat wid - _)%nat with O by (cbn; lia).
    + rewrite itoa_loop_zero by (cbn; lia). cbn.
      replace (Z.to_nat wid) with (S (Z.to_nat wid - 1)) at 1 by lia.
      by rewrite zeros_shift.
  - destruct Hlow as [Hz | Hlow]; [done |]. rewrite decimal_length in *.
    rewrite (itoa_loop_pos 32 (uint i) wid EmptyString
               (S (N.to_nat (N.log2 (Z.to_N (uint i))))));
      [| cbn; lia | cbn; lia | by cbn | lia | | done].
    + unfold fmt.decimal. rewrite fmt_digits_digits_of.
      by rewrite digits_string_app, zeros_spec.
    + replace (N.of_nat (S (N.to_nat (N.log2 (Z.to_N (uint i))))))
        with (N.succ (N.log2 (Z.to_N (uint i)))) by lia.
      apply N.log2_spec. lia.
Qed.

(** The widths [doLog] passes are far from a wrap. *)
Lemma itoa_uint buf i wid :
  - 2 ^ 63 + 65 <= wid <= 32 ->
  itoa buf i wid
  = Return (buf +:+ fmt.decimal_pad (Z.to_nat wid) (Z.to_N (uint i))).
Proof.
  intros Hwid. apply itoa_exact; [lia |]. right.
  rewrite decimal_length.
  pose proof (digits_of_length_le
                (S (N.to_nat (N.log2 (Z.to_N (uint i))))) (Z.to_N (uint i))).
  pose proof (uint_range i) as Hu.
  assert (N.log2 (Z.to_N (uint i)) < 64)%N.
  { destruct (Z.eq_dec (uint i) 0) as [-> | Hne]; [done |].
    apply N.log2_lt_pow2; [lia |].
    change (2 ^ 64)%N with (Z.to_N (2 ^ 64)). lia. }
  lia.
Qed.

(** [itoa] is [%0<wid>d]. *)
Lemma itoa_decimal_pad buf i wid :
  0 <= i < 2 ^ 64 -> 0 <= wid <= 32 ->
  itoa buf i wid = Return (buf +:+ fmt.decimal_pad (Z.to_nat wid) (Z.to_N i)).
Proof.
  intros Hi Hwid. rewrite itoa_uint by lia.
  unfold uint. by rewrite Z.mod_small by lia.
Qed.

(** For a clock inside the range of [int], the line of [doLog] is
    [log_line]. *)
Lemma doLog_buf_format t str :
  0 <= year t < 2 ^ 63 -> 0 <= month t < 2 ^ 63 -> 0 <= day t < 2 ^ 63 ->
  0 <= hour t < 2 ^ 63 -> 0 <= min t < 2 ^ 63 -> 0 <= sec t < 2 ^ 63 ->
  0 <= Nanosecond t < 2 ^ 63 ->
  doLog_buf t str = Return (log_line t str).
Proof.
  intros Hy Hmo Hd Hh Hmi Hs Hn. unfold doLog_buf, log_line.
  assert (0 <= Z.quot (Nanosecond t) 1000 < 2 ^ 64).
  { rewrite Z.quot_div_nonneg by lia. split; [apply Z.div_pos; lia |].
    apply Z.div_lt_upper_bound; lia. }
  repeat (rewrite itoa_decimal_pad by lia; cbn [bind_outcome]).
  reflexivity.
Qed.

(** C9: the line [doLog] writes gives the day four digits, not two: on
    2012-11-05 at 10:04:05.000123 the line for a message is
    [2012/11/0005 10:04:05.000123 <message>], and that is what [Log]
    appends to the log of an active storage. *)
Theorem doLog_pads_day_to_four :
  (forall str,
     doLog_buf (mkTime 2012 11 5 10 4 5 123000) str
     = Return ("2012/11/0005 10:04:05.000123 " +:+ str +:+ newline))
  /\ lw_written (fs_logw (fs (Log quiet "hi" fresh_storage).1))
     = "2012/11/0005 10:04:05.000123 hi" +:+ newline.
Proof. split; [intros str |]; reflexivity. Qed.

(* ===================================================================== *)
(** ** Open files *)
(* ===================================================================== *)

(** C10: when [Open] or [Create] returns an error, the open flag of the
    file and the count of open files of the storage are what they were
    (nothing at all has changed); when it returns a handle, the storage
    was active, the flag was clear and is now set, and the count has gone
    up by one. *)
Theorem Open_Create_failure_atomic o w r f :
  heap w !! r = Some f ->
  (forall w' e, Open o r w = (w', Return (Err e)) ->
     heap w' !! r = Some f /\ fs_open (fs w') = fs_open (fs w) /\ w' = w)
  /\ (forall w' e, Create o r w = (w', Return (Err e)) ->
     heap w' !! r = Some f /\ fs_open (fs w') = fs_open (fs w) /\ w' = w)
  /\ (forall w' h,
        Open o r w = (w', Return (Ok h)) \/ Create o r w = (w', Return (Ok h)) ->
        0 <= fs_open (fs w) /\ f_open f = false
        /\ heap w' !! r = Some (set_f_open f true)
        /\ fs_open (fs w') = int (fs_open (fs w) + 1)).
Proof.
  intros Hf. split_and!.
  - intros w' e. unfold Open, os.Open, os.new_File. unfold_M. rewrite Hf.
    destruct (fs_open (fs w) <? 0); [by intros [= <- _] |].
    destruct (f_open f); [by intros [= <- _] |].
    destruct (name f) as [nm|]; [| done].
    destruct (fault_open o); [by intros [= <- _] |].
    destruct (dir w !! nm); [| by intros [= <- _]].
    cbn. rewrite Hf. done.
  - intros w' e. unfold Create, os.Create, os.new_File. unfold_M. rewrite Hf.
    destruct (fs_open (fs w) <? 0); [by intros [= <- _] |].
    destruct (f_open f); [by intros [= <- _] |].
    destruct (name f) as [nm|]; [| done].
    destruct (fault_open o); [by intros [= <- _] |].
    cbn. rewrite Hf. done.
  - intros w' h. unfold Open, Create, os.Open, os.Create, os.new_File. unfold_M.
    rewrite Hf.
    destruct (Z.ltb_spec (fs_open (fs w)) 0); [by intros [[=] | [=]] |].
    destruct (f_open f); [by intros [[=] | [=]] |].
    destruct (name f) as [nm|]; [| by intros [[=] | [=]]].
    destruct (fault_open o); [by intros [[=] | [=]] |].
    destruct (dir w !! nm); cbn; rewrite Hf; cbn.
    + intros [[= <- _] | [= <- _]]; cbn;
        (split_and!; [done | done | | done]);
        apply list_lookup_insert_eq; by eapply lookup_lt_Some.
    + intros [[=] | [= <- _]]; cbn.
      split_and!; [done | done | | done].
      apply list_lookup_insert_eq; by eapply lookup_lt_Some.
Qed.

Lemma Open_Create_failure_atomic_witness :
  heap table_1_twice !! 0%nat = Some (mkfile 1 TypeTable true)
  /\ heap (Open quiet 0 table_1_twice).1 !! 0%nat = Some (mkfile 1 TypeTable true)
  /\ fs_open (fs (Open quiet 0 table_1_twice).1) = fs_open (fs table_1_twice).
Proof.
  split; [reflexivity |].
  destruct (Open_Create_failure_atomic quiet table_1_twice 0
              (mkfile 1 TypeTable true) eq_refl) as (H & _ & _).
  destruct (H (Open quiet 0 table_1_twice).1 errFileOpen eq_refl)
    as (Hflag & Hcount & _).
  exact (conj Hflag Hcount).
Defined.

(** While the flag of a file object of an active storage is set, [Open]
    and [Create] on that object fail with [errFileOpen] and change
    nothing; [Close] through a handle of the object clears the flag and
    takes one from the count, and then [Create] on the object succeeds
    again, and so does [Open] when the file exists, as long as the
    operating system opens the file. *)
Lemma flag_set_excludes FTS o w r f :
  0 <= fs_open (fs w) -> heap w !! r = Some f -> f_open f = true ->
  Open o r w = (w, Return (Err errFileOpen))
  /\ Create o r w = (w, Return (Err errFileOpen))
  /\ (forall o1 fw,
        fw_f fw = r -> is_Some (files w !! fw_File fw) ->
        0 < fs_open (fs w) < 2 ^ 63 ->
        exists w1 e,
          fileWrap_Close FTS o1 fw w = (w1, Return e)
          /\ heap w1 !! r = Some (set_f_open f false)
          /\ fs_open (fs w1) = fs_open (fs w) - 1
          /\ dir w1 = dir w
          /\ forall nm, name f = Return nm -> fault_open o = None ->
               (exists w2 h, Create o r w1 = (w2, Return (Ok h)))
               /\ (is_Some (dir w !! nm) ->
                   exists w2 h, Open o r w1 = (w2, Return (Ok h)))).
Proof.
  intros Hact Hf Hopen. split_and!.
  - unfold Open. unfold_M. rewrite Hf, Hopen.
    by destruct (Z.ltb_spec (fs_open (fs w)) 0); [lia |].
  - unfold Create. unfold_M. rewrite Hf, Hopen.
    by destruct (Z.ltb_spec (fs_open (fs w)) 0); [lia |].
  - intros o1 [fd r'] Hr [osf Hosf] Hcount. cbn in Hr, Hosf. subst r'.
    pose proof (lookup_lt_Some _ _ _ Hf) as Hlt.
    set (w0 := set_fs (set_heap w (<[r := set_f_open f false]> (heap w)))
                 (set_fs_open (fs w) (fs_open (fs w) - 1))).
    assert (Hstep : exists w1 e,
      fileWrap_Close FTS o1 (mkfileWrap fd r) w = (w1, Return e)
      /\ heap w1 = heap w0 /\ fs_open (fs w1) = fs_open (fs w0)
      /\ dir w1 = dir w0).
    { unfold fileWrap_Close, os.Close. unfold_M. cbn. rewrite Hf, Hopen. cbn.
      rewrite Hf. cbn. rewrite Hosf.
      rewrite int_small by lia.
      replace (fs_open (fs w) + -1) with (fs_open (fs w) - 1) by lia.
      fold w0.
      destruct (of_closed osf).
      - step_log. by eexists _, _.
      - destruct (fault_close o1) as [text|].
        + step_log. by eexists _, _.
        + by eexists _, _. }
    destruct Hstep as (w1 & e & Hrun & Hheap & Hcnt & Hdir).
    assert (Hf1 : heap w1 !! r = Some (set_f_open f false)).
    { rewrite Hheap. cbn. by apply list_lookup_insert_eq. }
    exists w1, e. split_and!; [done | done | done | done |].
    intros nm Hnm Hfault.
    assert (Hact1 : (fs_open (fs w1) <? 0) = false).
    { rewrite Hcnt. cbn. apply Z.ltb_ge. lia. }
    split.
    + unfold Create, os.Create, os.new_File. unfold_M.
      rewrite Hf1, Hact1. cbn [set_f_open f_open].
      change (name (set_f_open f false)) with (name f).
      rewrite Hnm, Hfault. cbn. rewrite Hf1.
      by eexists _, _.
    + intros [c Hc]. unfold Open, os.Open, os.new_File. unfold_M.
      rewrite Hf1, Hact1. cbn [set_f_open f_open].
      change (name (set_f_open f false)) with (name f).
      rewrite Hnm, Hfault, Hdir. cbn. rewrite Hc.
      cbn. rewrite Hf1. by eexists _, _.
Qed.

(** C5 as stated fails: after two [GetFile] calls for the table 1 and
    [Create] on the first object, whose handle stays open, [Create] and
    [Open] on the second object, the same (kind, sequence) descriptor,
    both return a handle and not [errFileOpen]. *)
Lemma two_objects_one_descriptor_both_open :
  heap table_1_twice = [mkfile 1 TypeTable true; mkfile 1 TypeTable false]
  /\ fs_open (fs table_1_twice) = 1
  /\ (Create quiet 1 table_1_twice).2 = Return (Ok (mkfileWrap 1 1))
  /\ (Open quiet 1 table_1_twice).2 = Return (Ok (mkfileWrap 1 1))
  /\ heap (Create quiet 1 table_1_twice).1
     = [mkfile 1 TypeTable true; mkfile 1 TypeTable true]
  /\ fs_open (fs (Create quiet 1 table_1_twice).1) = 2.
Proof. by vm_compute. Qed.

(* ===================================================================== *)
(** ** Closing the storage *)
(* ===================================================================== *)

(** C4: [Close] on a storage with open files fails with the error "cannot
    close, N files still open" and the storage stays as active as it was;
    [Close] on an active storage without open files sets the count to -1,
    releases the process lock and closes the log, and a later [Close]
    fails with [ErrClosed]; on a closed storage [Close], [Lock],
    [GetFiles], [GetManifest], [SetManifest], [Open], [Create] and
    [Remove] fail with [ErrClosed], [Log] writes nothing, and none of them
    changes anything, so that the storage stays closed. *)
Theorem Close_spec FTS o w :
  (0 < fs_open (fs w) ->
   exists w',
     Close o w
     = (w', Return (Some (errorString
          ("leveldb/storage: cannot close, "
           +:+ fmt.decimal_int (fs_open (fs w)) +:+ " files still open"))))
     /\ fs_open (fs w') = fs_open (fs w)
     /\ fs_flock (fs w') = fs_flock (fs w)
     /\ lw_closed (fs_logw (fs w')) = lw_closed (fs_logw (fs w))
     /\ heap w' = heap w /\ dir w' = dir w)
  /\ (fs_open (fs w) = 0 ->
      exists w' e,
        Close o w = (w', Return e)
        /\ fs_open (fs w') = -1
        /\ fs_flock (fs w') = false
        /\ lw_closed (fs_logw (fs w')) = true
        /\ forall o', Close o' w' = (w', Return (Some ErrClosed)))
  /\ (fs_open (fs w) < 0 ->
      Close o w = (w, Return (Some ErrClosed))
      /\ Lock w = (w, Return (Err ErrClosed))
      /\ (forall wanted, GetFiles o wanted w = (w, Return (Err ErrClosed)))
      /\ GetManifest o w = (w, Return (Err ErrClosed))
      /\ (forall f, SetManifest o f w = (w, Return (Some ErrClosed)))
      /\ (forall str, Log o str w = (w, Return tt))
      /\ (forall r, is_Some (heap w !! r) ->
            Open o r w = (w, Return (Err ErrClosed))
            /\ Create o r w = (w, Return (Err ErrClosed))
            /\ Remove FTS o r w = (w, Return (Some ErrClosed)))).
Proof.
  split_and!.
  - intros Hpos. unfold Close. unfold_M.
    destruct (Z.ltb_spec (fs_open (fs w)) 0); [lia |]. cbn.
    destruct (Z.gtb_spec (fs_open (fs w)) 0); [| lia].
    step_log.
    eexists. split; [reflexivity |]. cbn.
    unfold logw_Write.
    by destruct (lw_closed (fs_logw (fs w))) eqn:Hcl, (fault_logw o 0).
  - intros Hzero. unfold Close, flock_release. unfold_M.
    rewrite Hzero. cbn. eexists _, _. split; [reflexivity |]. cbn.
    split_and!; [done | done | done |]. intros o'. by cbn.
  - intros Hc.
    assert (Hlt : (fs_open (fs w) <? 0) = true) by (apply Z.ltb_lt; lia).
    split_and!.
    + unfold Close. unfold_M. by rewrite Hlt.
    + unfold Lock. unfold_M. by rewrite Hlt.
    + intros wanted. unfold GetFiles. unfold_M. by rewrite Hlt.
    + unfold GetManifest. unfold_M. by rewrite Hlt.
    + intros f. unfold SetManifest. unfold_M. by rewrite Hlt.
    + intros str. unfold Log. unfold_M. by rewrite Hlt.
    + intros r [f Hf]. split_and!.
      * unfold Open. unfold_M. by rewrite Hf, Hlt.
      * unfold Create. unfold_M. by rewrite Hf, Hlt.
      * unfold Remove. unfold_M. by rewrite Hf, Hlt.
Qed.

Lemma Close_spec_witness :
  (exists w',
     Close quiet table_1_twice
     = (w', Return (Some (errorString
          "leveldb/storage: cannot close, 1 files still open")))
     /\ fs_open (fs w') = 1)
  /\ (exists w' e,
        Close quiet fresh_storage = (w', Return e)
        /\ fs_open (fs w') = -1
        /\ fs_flock (fs w') = false
        /\ lw_closed (fs_logw (fs w')) = true
        /\ forall o', Close o' w' = (w', Return (Some ErrClosed)))
  /\ GetManifest quiet (storage_with ∅ [] (-1))
     = (storage_with ∅ [] (-1), Return (Err ErrClosed)).
Proof.
  destruct (Close_spec kind_text quiet table_1_twice) as (Hbusy & _ & _).
  destruct (Close_spec kind_text quiet fresh_storage) as (_ & Hidle & _).
  destruct (Close_spec kind_text quiet (storage_with ∅ [] (-1)))
    as (_ & _ & Hclosed).
  split_and!.
  - destruct (Hbusy ltac:(by vm_compute)) as (w' & Hrun & Hopen & _).
    exists w'. split; [exact Hrun | exact Hopen].
  - exact (Hidle eq_refl).
  - destruct (Hclosed ltac:(by vm_compute)) as (_ & _ & _ & Hget & _).
    exact Hget.
Defined.

(* ===================================================================== *)
(** ** The manifest pointer *)
(* ===================================================================== *)

Lemma tmp_not_CURRENT s : ("CURRENT" +:+ "." +:+ s)%string <> "CURRENT"%string.
Proof. intros H. vm_compute in H. discriminate H. Qed.

(** With no failure of open, write and rename, [SetManifest] publishes. *)
Lemma SetManifest_published o w r f2 :
  0 <= fs_open (fs w) -> heap w !! r = Some f2 -> f_t f2 = TypeManifest ->
  fault_open o = None -> fault_write o = None -> fault_rename o = None ->
  let tmp := "CURRENT" +:+ "." +:+ fmt.decimal (f_num f2) in
  let line := ("MANIFEST-" +:+ fmt.decimal_pad 6 (f_num f2)) +:+ newline in
  exists w',
    SetManifest o (file_ptr r) w = (w', Return None)
    /\ dir w' = <["CURRENT"%string := line]>
                  (delete tmp (<[tmp := line]> (<[tmp := EmptyString]> (dir w)))).
Proof.
  intros Ha Hf Ht Hfo Hfw Hfr tmp line.
  unfold SetManifest, os.Create, os.Write, rename, os.Close, os.new_File, name.
  unfold_M. cbv beta iota.
  destruct (Z.ltb_spec (fs_open (fs w)) 0); [lia |].
  rewrite Hf. cbv beta iota. rewrite Ht, Hfo.
  rewrite bool_decide_eq_true_2 by done.
  cbn. rewrite list_lookup_middle by done. cbn.
  rewrite Hfw, Hfr. cbn. fold tmp. fold line.
  rewrite lookup_insert_eq. cbn.
  rewrite list_lookup_middle by done. cbn.
  destruct (fault_close o) as [text|].
  - step_log. eexists. split; [reflexivity |]. done.
  - eexists. split; [reflexivity |]. done.
Qed.

(** With such a failure it returns an error. *)
Lemma SetManifest_failed o w r f2 w' :
  0 <= fs_open (fs w) -> heap w !! r = Some f2 -> f_t f2 = TypeManifest ->
  ~ (fault_open o = None /\ fault_write o = None /\ fault_rename o = None) ->
  SetManifest o (file_ptr r) w <> (w', Return None).
Proof.
  intros Ha Hf Ht Hfault.
  unfold SetManifest, os.Create, os.Write, rename, os.Close, os.new_File, name.
  unfold_M. cbv beta iota.
  destruct (Z.ltb_spec (fs_open (fs w)) 0); [lia |].
  rewrite Hf. cbv beta iota. rewrite Ht.
  rewrite bool_decide_eq_true_2 by done.
  cbn. destruct (fault_open o) as [text|].
  { step_log. done. }
  cbn. rewrite list_lookup_middle by done. cbn.
  destruct (fault_write o) as [[k text]|].
  { cbn. rewrite list_lookup_middle by done. cbn.
    destruct (fault_close o); repeat step_log; done. }
  destruct (fault_rename o) as [text|]; [| by destruct Hfault].
  cbn. rewrite list_lookup_middle by done. cbn.
  destruct (fault_close o); repeat step_log; done.
Qed.

(** C1: on an active storage, [SetManifest] with a descriptor whose kind
    is not Manifest returns [ErrInvalidFile] and changes nothing.  With a
    Manifest descriptor it succeeds when open, write and rename do, and
    whenever it succeeds the directory is what creating CURRENT.<num>,
    writing the manifest name and a newline into it and renaming it to
    CURRENT make of it: CURRENT.<num> is gone and CURRENT holds the name
    followed by a newline. *)
Theorem SetManifest_spec o w r f2 :
  0 <= fs_open (fs w) -> heap w !! r = Some f2 ->
  let tmp := "CURRENT" +:+ "." +:+ fmt.decimal (f_num f2) in
  let line := ("MANIFEST-" +:+ fmt.decimal_pad 6 (f_num f2)) +:+ newline in
  (f_t f2 <> TypeManifest ->
   SetManifest o (file_ptr r) w = (w, Return (Some ErrInvalidFile)))
  /\ (f_t f2 = TypeManifest ->
      (fault_open o = None -> fault_write o = None -> fault_rename o = None ->
       exists w', SetManifest o (file_ptr r) w = (w', Return None))
      /\ forall w',
           SetManifest o (file_ptr r) w = (w', Return None) ->
           dir w' = <["CURRENT"%string := line]>
                      (delete tmp (<[tmp := line]> (<[tmp := EmptyString]> (dir w))))
           /\ dir w' !! tmp = None
           /\ dir w' !! "CURRENT"%string = Some line).
Proof.
  intros Ha Hf tmp line. split.
  - intros Ht. unfold SetManifest. unfold_M. cbv beta iota.
    destruct (Z.ltb_spec (fs_open (fs w)) 0); [lia |].
    rewrite Hf. cbv beta iota. by rewrite bool_decide_eq_false_2.
  - intros Ht. split.
    + intros Hfo Hfw Hfr.
      destruct (SetManifest_published o w r f2) as (w' & Hrun & _); [done.. |].
      by exists w'.
    + intros w' Hrun.
      destruct (decide (fault_open o = None /\ fault_write o = None
                        /\ fault_rename o = None)) as [(Hfo & Hfw & Hfr) | Hno].
      * destruct (SetManifest_published o w r f2) as (w'' & Hrun' & Hdir);
          [done.. |].
        rewrite Hrun in Hrun'. injection Hrun' as ->.
        fold tmp line in Hdir. rewrite Hdir. split_and!; [done | |].
        -- rewrite lookup_insert_ne by (symmetry; apply tmp_not_CURRENT).
           apply lookup_delete_eq.
        -- apply lookup_insert_eq.
      * by destruct (SetManifest_failed o w r f2 w').
Qed.

Lemma SetManifest_spec_witness :
  0 <= fs_open (fs (storage_with ∅ [mkfile 7 TypeManifest false] 0))
  /\ heap (storage_with ∅ [mkfile 7 TypeManifest false] 0) !! 0%nat
     = Some (mkfile 7 TypeManifest false)
  /\ dir (SetManifest quiet (file_ptr 0)
            (storage_with ∅ [mkfile 7 TypeManifest false] 0)).1
       !! "CURRENT.7"%string = None
  /\ dir (SetManifest quiet (file_ptr 0)
            (storage_with ∅ [mkfile 7 TypeManifest false] 0)).1
       !! "CURRENT"%string = Some ("MANIFEST-000007" +:+ newline).
Proof.
  split; [by vm_compute |]. split; [reflexivity |].
  destruct (SetManifest_spec quiet
              (storage_with ∅ [mkfile 7 TypeManifest false] 0) 0
              (mkfile 7 TypeManifest false)) as (_ & Hpub);
    [by vm_compute | reflexivity |].
  destruct (Hpub eq_refl) as (_ & Hdir).
  destruct (Hdir (SetManifest quiet (file_ptr 0)
                    (storage_with ∅ [mkfile 7 TypeManifest false] 0)).1)
    as (_ & Hgone & Hcur); [by vm_compute |].
  exact (conj Hgone Hcur).
Defined.

Lemma length_append_newline s :
  String.length (s +:+ newline) = S (String.length s).
Proof. induction s as [|c s IH]; [done |]. rewrite append_String. cbn. by rewrite IH. Qed.

Lemma prefix_append_newline s :
  prefix (String.length s) (s +:+ newline) = s.
Proof. induction s as [|c s IH]; [done |]. rewrite append_String. cbn. by rewrite IH. Qed.

Lemma last_append_newline s :
  String.substring (String.length s) 1 (s +:+ newline) = newline.
Proof. induction s as [|c s IH]; [done |]. rewrite append_String. cbn. by rewrite IH. Qed.

(** What [GetManifest] asks of the content of CURRENT: a final newline
    and text before it that [parse] takes, of whatever kind. *)
Lemma GetManifest_returns_what_parse_takes o w text f :
  0 <= fs_open (fs w) -> fault_open o = None -> fault_read o = None ->
  dir w !! "CURRENT"%string = Some (text +:+ newline) ->
  parse (mkfile 0 TypeOther false) text = (f, true) ->
  exists w',
    GetManifest o w = (w', Return (Ok (length (heap w))))
    /\ heap w' = heap w ++ [f].
Proof.
  intros Ha Hfo Hfr Hcur Hparse.
  unfold GetManifest, os.Open, os.ReadAll, os.Close, os.new_File.
  unfold_M. cbv beta iota.
  destruct (Z.ltb_spec (fs_open (fs w)) 0); [lia |].
  rewrite Hfo, Hcur. cbn. rewrite list_lookup_middle by done.
  rewrite Hfr. cbn. rewrite Hcur. cbn.
  rewrite length_append_newline. cbn [Nat.sub].
  rewrite Nat.sub_0_r, prefix_append_newline, last_append_newline, Hparse.
  cbn. rewrite list_lookup_middle by done. cbn.
  destruct (fault_close o) as [text'|].
  - step_log. by eexists.
  - by eexists.
Qed.

(** So a journal or table name in CURRENT comes back as that journal or
    table. *)
Lemma GetManifest_returns_any_kind o w t num nm :
  0 <= fs_open (fs w) -> fault_open o = None -> fault_read o = None ->
  t <> TypeOther -> (num < 2 ^ 64)%N ->
  name (mkfile num t false) = Return nm ->
  dir w !! "CURRENT"%string = Some (nm +:+ newline) ->
  exists w',
    GetManifest o w = (w', Return (Ok (length (heap w))))
    /\ heap w' = heap w ++ [mkfile num t false].
Proof.
  intros Ha Hfo Hfr Ht Hnum Hnm Hcur.
  destruct (parse_name t num Ht Hnum) as (nm' & Hnm' & Hparse).
  rewrite Hnm in Hnm'. injection Hnm' as <-.
  by apply (GetManifest_returns_what_parse_takes o w nm).
Qed.

(** C2: [GetManifest] does not look at the kind the content decodes to,
    nor past the first line of it: with the journal name 000001.log and a
    newline in CURRENT it returns a file that is the journal 1, and with a
    manifest name, a newline and one more line it returns the manifest 1,
    both without an error.  Content that is empty, lacks the final newline
    or does not decode gives the error "invalid CURRENT file". *)
Theorem GetManifest_accepts_journal_name :
  (GetManifest quiet (current_is ("000001.log" +:+ newline))).2 = Return (Ok 0%nat)
  /\ heap (GetManifest quiet (current_is ("000001.log" +:+ newline))).1
     = [mkfile 1 TypeJournal false]
  /\ (GetManifest quiet
        (current_is ("MANIFEST-000001" +:+ newline +:+ "foo" +:+ newline))).2
     = Return (Ok 0%nat)
  /\ heap (GetManifest quiet
             (current_is ("MANIFEST-000001" +:+ newline +:+ "foo" +:+ newline))).1
     = [mkfile 1 TypeManifest false]
  /\ Forall (fun content =>
       (GetManifest quiet (current_is content)).2
       = Return (Err (errorString "leveldb/storage: invalid CURRENT file")))
       [EmptyString; "MANIFEST-000001"%string; "foo" +:+ newline; newline].
Proof.
  split_and!; [by vm_compute.. |].
  repeat constructor; by vm_compute.
Qed.

(* ===================================================================== *)
(** ** Further properties of the name codec *)
(* ===================================================================== *)

Local Close Scope Z_scope.

Lemma ParseUint_loop_bound tok n u :
  n <= strconv.maxUint64 -> strconv.ParseUint_loop tok n = Some u ->
  u <= strconv.maxUint64.
Proof.
  revert n. induction tok as [|c tok IH]; intros n Hn; cbn [strconv.ParseUint_loop].
  - by intros [= <-].
  - destruct (_ <=? n); [done |].
    destruct (N.ltb_spec strconv.maxUint64 (n * 10 + (c - 48))); [done |].
    by apply IH.
Qed.

Lemma scanUint_bound s u rest :
  fmt.scanUint s = fmt.Scanned u rest -> u < 2 ^ 64.
Proof.
  unfold fmt.scanUint. destruct (fmt.SkipSpace s) as [[] [|r s'] |]; [done | | done].
  destruct (fmt.isDigit r); [| done].
  destruct (fmt.accept_digits (r :: s')) as [tok rest'].
  destruct (strconv.ParseUint tok) as [u'|] eqn:Hp; [| done].
  intros [= <- _]. unfold strconv.ParseUint in Hp.
  destruct tok; [done |].
  apply ParseUint_loop_bound in Hp; [| by vm_compute].
  assert (strconv.maxUint64 = 2 ^ 64 - 1) by reflexivity. lia.
Qed.

Lemma doScanf_fits fm s stored :
  Forall fits stored -> Forall fits (fmt.doScanf fm s stored).1.
Proof.
  revert s stored. induction fm as [|it fm IH]; intros s stored Hst; [done |].
  destruct it as [c | |]; cbn [fmt.doScanf].
  - destruct s as [|r s']; [done |]. destruct (r =? c); [by apply IH | done].
  - destruct (fmt.scanUint s) as [u rest|] eqn:Hs; [| done].
    apply IH. apply Forall_app. split; [done |].
    constructor; [| done]. by eapply scanUint_bound.
  - destruct (fmt.convertString s) as [str rest|]; [| done].
    apply IH. apply Forall_app. split; [done |]. by constructor.
Qed.

Lemma Sscanf_fits str format : Forall fits (fmt.stored (fmt.Sscanf str format)).
Proof.
  unfold fmt.Sscanf. destruct (fmt.items _) as [fm|]; [| by constructor].
  pose proof (doScanf_fits fm (utf8.runes str) [] (Forall_nil_2 _)) as H.
  by destruct (fmt.doScanf _ _ _).
Qed.

Lemma uint64_at_fits k str format old :
  old < 2 ^ 64 -> fmt.uint64_at k (fmt.Sscanf str format) old < 2 ^ 64.
Proof.
  intros Hold. unfold fmt.uint64_at.
  destruct (fmt.stored _ !! k) as [[u | s]|] eqn:Hk; [| done | done].
  pose proof (Sscanf_fits str format) as Hall.
  rewrite Forall_lookup in Hall. exact (Hall k _ Hk).
Qed.

(** The two ways [parse] ends: without a match and the file as it was, or
    with a match, a kind among the three and a number that fits. *)
Lemma parse_cases (f : file) (nm : string) :
  parse f nm = (f, false)
  \/ exists t n, t <> TypeOther /\ n < 2 ^ 64
                 /\ parse f nm = (mkfile n t (f_open f), true).
Proof.
  unfold parse.
  pose proof (uint64_at_fits 0 nm "%d.%s" 0 ltac:(done)) as H1.
  pose proof (uint64_at_fits 0 nm "MANIFEST-%d%s" _ H1) as H2.
  destruct (fmt.err (fmt.Sscanf nm "%d.%s")).
  - destruct (Nat.eqb _ 1); [right | by left].
    eexists TypeManifest, _. split_and!; [done | exact H2 | done].
  - destruct (String.eqb _ "log").
    { right. eexists TypeJournal, _. split_and!; [done | exact H1 | done]. }
    destruct (String.eqb _ "sst"); [right | by left].
    eexists TypeTable, _. split_and!; [done | exact H1 | done].
Qed.

Lemma parse_keeps_open (f : file) (nm : string) :
  f_open (parse f nm).1 = f_open f.
Proof.
  by destruct (parse_cases f nm) as [-> | (t & n & _ & _ & ->)].
Qed.

(** X1: what [parse] leaves in the file.  It never touches the open flag;
    when it reports success the kind is one of the three it knows and the
    number fits 64 bits; when it reports failure the file is as it was. *)
Theorem parse_sound (f : file) (nm : string) :
  f_open (parse f nm).1 = f_open f
  /\ if (parse f nm).2
     then f_t (parse f nm).1 <> TypeOther /\ f_num (parse f nm).1 < 2 ^ 64
     else (parse f nm).1 = f.
Proof.
  by destruct (parse_cases f nm) as [-> | (t & n & Ht & Hn & ->)].
Qed.

Lemma ParseUint_loop_overflow ds n :
  Forall (fun d => d < 10) ds -> n <= strconv.maxUint64 ->
  strconv.maxUint64 < digits_value ds n ->
  strconv.ParseUint_loop (digit_runes ds) n = None.
Proof.
  intros Hall. revert n. induction Hall as [|d ds Hd _ IH]; intros n Hn Hbig.
  - cbn in Hbig. lia.
  - cbn [digit_runes map strconv.ParseUint_loop]. fold (digit_runes ds).
    change (digits_value (d :: ds) n) with (digits_value ds (n * 10 + d)) in Hbig.
    replace (48 + d - 48) with d by lia.
    destruct (_ <=? n); [done |].
    destruct (N.ltb_spec strconv.maxUint64 (n * 10 + d)); [done |].
    by apply IH.
Qed.

Lemma scanUint_overflow ds rest :
  ds <> [] -> Forall (fun d => d < 10) ds ->
  2 ^ 64 <= digits_value ds 0 -> stops rest ->
  fmt.scanUint (digit_runes ds ++ rest) = fmt.Failed fmt.value_out_of_range.
Proof.
  intros Hne Hall Hval Hrest. unfold fmt.scanUint.
  assert (Hp : strconv.ParseUint (digit_runes ds) = None).
  { unfold strconv.ParseUint. destruct ds as [|d ds]; [done |].
    change (digit_runes (d :: ds)) with (48 + d :: digit_runes ds) at 1.
    cbv beta iota. change (48 + d :: digit_runes ds) with (digit_runes (d :: ds)).
    apply ParseUint_loop_overflow; [done | by vm_compute |].
    assert (strconv.maxUint64 = 2 ^ 64 - 1) by reflexivity. lia. }
  destruct ds as [|d ds]; [done |].
  pose proof (Forall_inv Hall) as Hd.
  destruct (digit_rune_class d Hd) as (Hdig & Hsp & H13 & H10).
  cbn [digit_runes map app fmt.SkipSpace]. rewrite H13, H10, Hsp. cbn [andb].
  rewrite Hdig.
  change (48 + d :: map (N.add 48) ds ++ rest) with (digit_runes (d :: ds) ++ rest).
  rewrite accept_digits_spec by done. by rewrite Hp.
Qed.

(** X2: a name whose number does not fit 64 bits is no match, for the
    journal and table pattern as for the manifest pattern. *)
Theorem decode_rejects_overflow (ds : list N) (suffix : string) :
  ds <> [] -> Forall (fun d => d < 10) ds ->
  2 ^ 64 <= digits_value ds 0 -> stops (utf8.runes suffix) ->
  decode (digits_string ds suffix) = None
  /\ decode ("MANIFEST-" +:+ digits_string ds suffix) = None.
Proof.
  intros Hne Hall Hval Hstop.
  pose proof (scanUint_overflow ds (utf8.runes suffix) Hne Hall Hval Hstop) as Hscan.
  split; unfold decode, parse.
  - assert (H1 : fmt.Sscanf (digits_string ds suffix) "%d.%s"
                 = {| fmt.stored := []; fmt.err := Some fmt.value_out_of_range |}).
    { unfold fmt.Sscanf. rewrite items_journal, runes_digits by done.
      cbn [fmt.doScanf]. by rewrite Hscan. }
    assert (H2 : fmt.Sscanf (digits_string ds suffix) "MANIFEST-%d%s"
                 = {| fmt.stored := [];
                      fmt.err := Some fmt.input_does_not_match_format |}).
    { unfold fmt.Sscanf. rewrite items_manifest, runes_digits by done.
      destruct ds as [|d ds]; [done |].
      cbn [digit_runes map app fmt.doScanf].
      pose proof (Forall_inv Hall) as Hd. cbn beta in Hd.
      destruct (N.eqb_spec (48 + d) 77); [lia | done]. }
    by rewrite H1, H2.
  - assert (H1 : fmt.Sscanf ("MANIFEST-" +:+ digits_string ds suffix) "%d.%s"
                 = {| fmt.stored := []; fmt.err := Some fmt.expected_integer |})
      by reflexivity.
    assert (H2 : fmt.Sscanf ("MANIFEST-" +:+ digits_string ds suffix) "MANIFEST-%d%s"
                 = {| fmt.stored := []; fmt.err := Some fmt.value_out_of_range |}).
    { unfold fmt.Sscanf. rewrite items_manifest.
      change (utf8.runes ("MANIFEST-" +:+ digits_string ds suffix))
        with (77 :: 65 :: 78 :: 73 :: 70 :: 69 :: 83 :: 84 :: 45
              :: utf8.runes (digits_string ds suffix)).
      rewrite runes_digits by done.
      cbn -[fmt.scanUint fmt.convertString]. by rewrite Hscan. }
    by rewrite H1, H2.
Qed.

Lemma decode_rejects_overflow_witness :
  decode "18446744073709551616.log" = None
  /\ decode "MANIFEST-18446744073709551616" = None.
Proof.
  apply (decode_rejects_overflow
           [1;8;4;4;6;7;4;4;0;7;3;7;0;9;5;5;1;6;1;6] ".log").
  - discriminate.
  - repeat constructor.
  - by vm_compute.
  - reflexivity.
Defined.

(** X3: [name] is injective on the descriptors it accepts: two files with
    the same name have the same kind and the same number. *)
Theorem name_injective (f1 f2 : file) (nm : string) :
  f_num f1 < 2 ^ 64 -> f_num f2 < 2 ^ 64 ->
  name f1 = Return nm -> name f2 = Return nm ->
  f_t f1 = f_t f2 /\ f_num f1 = f_num f2.
Proof.
  intros H1 H2 Hn1 Hn2.
  assert (Ht1 : f_t f1 <> TypeOther).
  { intros Ht. unfold name in Hn1. by rewrite Ht in Hn1. }
  assert (Ht2 : f_t f2 <> TypeOther).
  { intros Ht. unfold name in Hn2. by rewrite Ht in Hn2. }
  destruct (parse_name (f_t f1) (f_num f1) Ht1 H1) as (nm1 & Hnm1 & Hp1).
  destruct (parse_name (f_t f2) (f_num f2) Ht2 H2) as (nm2 & Hnm2 & Hp2).
  change (name (mkfile (f_num f1) (f_t f1) false)) with (name f1) in Hnm1.
  change (name (mkfile (f_num f2) (f_t f2) false)) with (name f2) in Hnm2.
  rewrite Hn1 in Hnm1. rewrite Hn2 in Hnm2.
  injection Hnm1 as <-. injection Hnm2 as <-.
  rewrite Hp1 in Hp2. by injection Hp2 as -> ->.
Qed.

Lemma name_injective_witness :
  f_t (mkfile 7 TypeTable true) = f_t (mkfile 7 TypeTable false)
  /\ f_num (mkfile 7 TypeTable true) = f_num (mkfile 7 TypeTable false).
Proof.
  apply (name_injective (mkfile 7 TypeTable true) (mkfile 7 TypeTable false)
           "000007.sst");
    [by vm_compute | by vm_compute | reflexivity | reflexivity].
Defined.


Local Open Scope Z_scope.

(* ===================================================================== *)
(** ** Further properties of the log *)
(* ===================================================================== *)

Lemma append_assoc (a b c : string) : (a +:+ b) +:+ c = a +:+ (b +:+ c).
Proof.
  induction a as [|x a IH]; [done |].
  by rewrite !append_String, IH.
Qed.

(** X4: what [itoa] appends, for every [int] width.  Up to the 32 bytes
    of its buffer, and as long as no [wid--] wraps, it appends the
    decimal digits of [uint(i)] zero-padded to [wid] (a negative [i]
    prints as [i + 2^64], a width below 1 pads nothing).  A width above
    32 runs off the buffer, index out of range; and so does a width so
    close to the least [int] that taking one from it for every digit of
    a number that is not zero wraps around. *)
Theorem itoa_spec (buf : string) (i wid : Z) :
  - 2 ^ 63 <= wid < 2 ^ 63 ->
  let u := Z.to_N (uint i) in
  let digits := Z.of_nat (String.length (fmt.decimal u)) in
  (wid <= 32 -> uint i = 0 \/ - 2 ^ 63 + digits <= wid ->
   itoa buf i wid = Return (buf +:+ fmt.decimal_pad (Z.to_nat wid) u))
  /\ (32 < wid -> itoa buf i wid = Panic "index out of range [-1]")
  /\ (uint i <> 0 -> wid < - 2 ^ 63 + digits ->
      itoa buf i wid = Panic "index out of range [-1]").
Proof.
  intros Hint u digits. pose proof (uint_range i) as Hu. split_and!.
  - intros Hwid Hlow. by apply itoa_exact.
  - intros Hwid. unfold itoa.
    destruct (Z.leb_spec wid 1); [lia |]. rewrite andb_false_r.
    by rewrite itoa_loop_panics by (cbn; lia).
  - intros Hne Hlow. unfold itoa.
    destruct (Z.eqb_spec (uint i) 0); [done |]. cbn [andb].
    subst digits u. rewrite decimal_length in Hlow.
    rewrite (itoa_loop_wraps 32 (uint i) wid EmptyString
               (S (N.to_nat (N.log2 (Z.to_N (uint i))))));
      [done | lia | lia | | by cbn | lia | lia].
    replace (N.of_nat (S (N.to_nat (N.log2 (Z.to_N (uint i))))))
      with (N.succ (N.log2 (Z.to_N (uint i)))) by lia.
    apply N.log2_spec. lia.
Qed.

Lemma itoa_spec_witness :
  itoa "x" (-1) 3 = Return "x18446744073709551615"%string
  /\ itoa "x" 7 33 = Panic "index out of range [-1]"
  /\ itoa "x" 7 (- 2 ^ 63) = Panic "index out of range [-1]"
  /\ itoa "x" 0 (- 2 ^ 63) = Return "x0"%string.
Proof.
  destruct (itoa_spec "x" (-1) 3 ltac:(lia)) as (H1 & _ & _).
  destruct (itoa_spec "x" 7 33 ltac:(lia)) as (_ & H2 & _).
  destruct (itoa_spec "x" 7 (- 2 ^ 63) ltac:(lia)) as (_ & _ & H3).
  destruct (itoa_spec "x" 0 (- 2 ^ 63) ltac:(lia)) as (H4 & _ & _).
  split_and!.
  - apply H1; [lia | right; by vm_compute].
  - apply H2. lia.
  - apply H3; [by vm_compute | by vm_compute].
  - apply H4; [lia | by left].
Defined.

Lemma doLog_buf_stamp t str :
  doLog_buf t str = Return (stamp t +:+ str +:+ newline).
Proof.
  unfold doLog_buf, stamp.
  repeat (rewrite itoa_uint by lia; cbn [bind_outcome]).
  cbn [Z.to_nat Pos.to_nat Pos.iter_op Nat.add].
  by rewrite !append_assoc.
Qed.

(** X5: [Log] never panics, whatever the clock reads.  On a closed storage
    it does nothing.  On an active one it leaves in [fs.buf], and appends
    to the log unless the log is closed or the write fails, one line: a
    stamp that depends on the clock alone, the message as it is, and a
    newline; nothing else changes. *)
Theorem Log_spec (o : OS) (str : string) (w : World) :
  (fs_open (fs w) < 0 -> Log o str w = (w, Return tt))
  /\ (0 <= fs_open (fs w) ->
      Log o str w
      = (logged (fault_logw o 0) (stamp (clock o 0) +:+ str +:+ newline) w,
         Return tt)
      /\ (lw_closed (fs_logw (fs w)) = false -> fault_logw o 0 = None ->
          lw_written (fs_logw (fs (Log o str w).1))
          = lw_written (fs_logw (fs w))
            +:+ stamp (clock o 0) +:+ str +:+ newline)).
Proof.
  split.
  - intros Hc. unfold Log. unfold_M.
    by destruct (Z.ltb_spec (fs_open (fs w)) 0); [| lia].
  - intros Ha.
    assert (Hrun : Log o str w
      = (logged (fault_logw o 0) (stamp (clock o 0) +:+ str +:+ newline) w,
         Return tt)).
    { unfold Log, doLog. unfold_M.
      destruct (Z.ltb_spec (fs_open (fs w)) 0); [lia |].
      by rewrite doLog_buf_stamp. }
    split; [done |]. intros Hopen Hfault. rewrite Hrun. cbn.
    unfold logw_Write. by rewrite Hopen, Hfault.
Qed.

Lemma Log_spec_witness :
  lw_written (fs_logw (fs (Log quiet "hi" fresh_storage).1))
  = "2012/11/0005 10:04:05.000123 hi" +:+ newline.
Proof.
  destruct (Log_spec quiet "hi" fresh_storage) as (_ & H).
  destruct (H ltac:(by vm_compute)) as (_ & Hw).
  exact (Hw eq_refl eq_refl).
Defined.


(* ===================================================================== *)
(** ** Invariants over sequences of calls *)
(* ===================================================================== *)

Lemma os_Open_untouched o nm w : untouched w (os.Open o nm w).1.
Proof.
  unfold os.Open. destruct (fault_open o); [done |].
  by destruct (dir w !! nm).
Qed.

Lemma os_Create_untouched o nm w : untouched w (os.Create o nm w).1.
Proof. unfold os.Create. by destruct (fault_open o). Qed.

Lemma os_Close_untouched o fd w : untouched w (os.Close o fd w).1.
Proof.
  unfold os.Close. destruct (files w !! fd) as [f|]; [| done].
  by destruct (of_closed f).
Qed.

Lemma os_Write_untouched o fd data w : untouched w (os.Write o fd data w).1.
Proof.
  unfold os.Write. destruct (files w !! fd) as [f|]; [| done].
  destruct (of_closed f); [done |]. by destruct (fault_write o) as [[k t]|].
Qed.

Lemma os_ReadAll_untouched o fd w : untouched w (os.ReadAll o fd w).1.
Proof.
  unfold os.ReadAll. destruct (files w !! fd) as [f|]; [| done].
  by destruct (fault_read o).
Qed.

Lemma os_Remove_untouched o nm w : untouched w (os.Remove o nm w).1.
Proof.
  unfold os.Remove. destruct (fault_remove o); [done |].
  by destruct (dir w !! nm).
Qed.

Lemma os_Readdirnames_untouched o w : untouched w (os.Readdirnames o w).1.
Proof. unfold os.Readdirnames. by destruct (fault_readdir o). Qed.

Lemma rename_untouched o old new w : untouched w (rename o old new w).1.
Proof.
  unfold rename. destruct (fault_rename o); [done |].
  by destruct (dir w !! old).
Qed.

Section Preserves.

Context (P : World -> World -> Prop).
Hypothesis P_refl : forall w, P w w.
Hypothesis P_trans : forall w1 w2 w3, P w1 w2 -> P w2 w3 -> P w1 w3.
Hypothesis P_untouched : forall w w', untouched w w' -> P w w'.
Hypothesis P_logged : forall fault line w, P w (logged fault line w).
Hypothesis P_new_file :
  forall f w, f_open f = false -> P w (set_heap w (heap w ++ [f])).

Lemma preserves_ret {A} (a : A) : preserves P (mret a).
Proof. intros w. apply P_refl. Qed.

Lemma preserves_panic {A} msg : preserves P (@panic A msg).
Proof. intros w. apply P_refl. Qed.

Lemma preserves_get : preserves P get.
Proof. intros w. apply P_refl. Qed.

Lemma preserves_lift {A} (x : outcome A) : preserves P (lift x).
Proof. intros w. apply P_refl. Qed.

Lemma preserves_bind {A B} (m : M A) (k : A -> M B) :
  preserves P m -> (forall a, preserves P (k a)) -> preserves P (m ≫= k).
Proof.
  intros Hm Hk w. unfold mbind, M_bind, bind.
  specialize (Hm w). destruct (m w) as [w1 [a | msg]]; [| exact Hm].
  eapply P_trans; [exact Hm | apply Hk].
Qed.

Lemma preserves_modify (g : World -> World) :
  (forall w, P w (g w)) -> preserves P (modify g).
Proof. intros Hg w. apply Hg. Qed.

Lemma preserves_log o k str : preserves P (log o k str).
Proof.
  intros w. destruct (log_spec o k str w) as (line & _ & ->). apply P_logged.
Qed.

Lemma preserves_doLog fault t str : preserves P (doLog fault t str).
Proof.
  intros w. unfold doLog. unfold_M.
  destruct (doLog_buf t str); [apply P_logged | apply P_refl].
Qed.

Lemma preserves_new_file f : f_open f = false -> preserves P (new_file f).
Proof. intros Hf w. by apply P_new_file. Qed.

Lemma preserves_deref r : preserves P (deref r).
Proof. intros w. unfold deref. destruct (heap w !! r); apply P_refl. Qed.

Ltac primitive lem := intros ?; apply P_untouched, lem.

Ltac pres :=
  repeat first
    [ apply preserves_ret | apply preserves_panic | apply preserves_get
    | apply preserves_lift | apply preserves_log | apply preserves_doLog
    | apply preserves_deref
    | primitive os_Open_untouched | primitive os_Create_untouched
    | primitive os_Close_untouched | primitive os_Write_untouched
    | primitive os_ReadAll_untouched | primitive os_Remove_untouched
    | primitive os_Readdirnames_untouched | primitive rename_untouched
    | apply preserves_bind; [| intros ?]
    | match goal with
      | |- preserves _ (match ?x with _ => _ end) => destruct x eqn:?
      end ].

Lemma preserves_Lock : preserves P Lock.
Proof.
  unfold Lock. pres. apply preserves_modify. intros w. by apply P_untouched.
Qed.

Lemma preserves_Release lock : preserves P (Release lock).
Proof.
  apply preserves_modify. intros w.
  destruct (decide _); [by apply P_untouched | apply P_refl].
Qed.

Lemma preserves_Log o str : preserves P (Log o str).
Proof. unfold Log. pres. Qed.

Lemma preserves_GetFile num t : preserves P (GetFile num t).
Proof. by apply preserves_new_file. Qed.

Lemma preserves_GetFiles_loop wanted fnn :
  preserves P (GetFiles_loop wanted fnn).
Proof.
  induction fnn as [|fn fnn IH]; cbn [GetFiles_loop]; [apply preserves_ret |].
  pose proof (parse_keeps_open (mkfile 0 TypeOther false) fn) as Hopen.
  destruct (parse _ fn) as [f ok]. cbn in Hopen.
  destruct (ok && wanted (f_t f)); [| exact IH].
  apply preserves_bind; [by apply preserves_new_file |]. intros r.
  apply preserves_bind; [exact IH |]. intros ff. apply preserves_ret.
Qed.

Lemma preserves_GetFiles o wanted : preserves P (GetFiles o wanted).
Proof. unfold GetFiles. pres. apply preserves_GetFiles_loop. Qed.

Lemma preserves_GetManifest o : preserves P (GetManifest o).
Proof.
  unfold GetManifest. pres.
  apply preserves_new_file.
  match goal with
  | H : parse _ ?nm = (?f, _) |- _ =>
    pose proof (parse_keeps_open (mkfile 0 TypeOther false) nm) as Hopen;
    rewrite H in Hopen; exact Hopen
  end.
Qed.

Lemma preserves_SetManifest o f : preserves P (SetManifest o f).
Proof. unfold SetManifest. pres. Qed.

Lemma preserves_Remove FTS o r : preserves P (Remove FTS o r).
Proof. unfold Remove. pres. Qed.

End Preserves.

Lemma steady_refl w : steady w w.
Proof. split; [done |]. exists []. by rewrite app_nil_r. Qed.

Lemma steady_trans w1 w2 w3 : steady w1 w2 -> steady w2 w3 -> steady w1 w3.
Proof.
  intros (Hc1 & e1 & Hh1 & He1) (Hc2 & e2 & Hh2 & He2). split; [congruence |].
  exists (e1 ++ e2). split; [by rewrite Hh2, Hh1, app_assoc |].
  by apply Forall_app.
Qed.

Lemma log_grows_refl w : log_grows w w.
Proof. exists EmptyString. induction (lw_written _) as [|c s IH]; [done |].
  by rewrite append_String, <- IH. Qed.

Lemma log_grows_trans w1 w2 w3 :
  log_grows w1 w2 -> log_grows w2 w3 -> log_grows w1 w3.
Proof.
  intros [s1 H1] [s2 H2]. exists (s1 +:+ s2).
  by rewrite H2, H1, append_assoc.
Qed.

Lemma open_flags_app h1 h2 :
  open_flags (h1 ++ h2) = (open_flags h1 + open_flags h2)%nat.
Proof. induction h1 as [|f h1 IH]; cbn; [done | rewrite IH; lia]. Qed.

Lemma open_flags_closed extra :
  Forall (fun f => f_open f = false) extra -> open_flags extra = O.
Proof. induction 1 as [|f extra Hf _ IH]; cbn; [done | by rewrite Hf, IH]. Qed.

Lemma open_flags_le h : (open_flags h <= length h)%nat.
Proof. induction h as [|f h IH]; cbn; [done | destruct (f_open f); cbn; lia]. Qed.

Lemma open_flags_zero_lookup h r f :
  open_flags h = O -> h !! r = Some f -> f_open f = false.
Proof.
  revert r. induction h as [|g h IH]; intros r Hz Hr; [done |].
  cbn [open_flags] in Hz. destruct r as [|r]; cbn in Hr.
  - injection Hr as <-. destruct (f_open g) eqn:E; [cbn in Hz; lia | done].
  - apply (IH r); [lia | done].
Qed.

Lemma open_flags_insert h r f x :
  h !! r = Some f ->
  (open_flags (<[r := set_f_open f x]> h) + bit (f_open f)
   = open_flags h + bit x)%nat.
Proof.
  revert r. induction h as [|g h IH]; intros r Hr; [done |].
  destruct r as [|r]; cbn [lookup list_lookup] in Hr.
  - injection Hr as ->. cbn. lia.
  - specialize (IH r Hr).
    change (open_flags (g :: <[r := set_f_open f x]> h) + bit (f_open f)
            = open_flags (g :: h) + bit x)%nat.
    cbn [open_flags]. lia.
Qed.

Lemma steady_untouched w w' : untouched w w' -> steady w w'.
Proof.
  intros (Hc & Hh & _). split; [done |]. exists []. by rewrite app_nil_r.
Qed.

Lemma steady_logged fault line w : steady w (logged fault line w).
Proof. split; [done |]. exists []. by rewrite app_nil_r. Qed.

Lemma steady_new_file f w :
  f_open f = false -> steady w (set_heap w (heap w ++ [f])).
Proof. intros Hf. split; [done |]. exists [f]. split; [done | by constructor]. Qed.

Lemma log_grows_same w w' :
  fs_logw (fs w') = fs_logw (fs w) -> log_grows w w'.
Proof. intros H. unfold log_grows. rewrite H. apply (log_grows_refl w). Qed.

Lemma log_grows_untouched w w' : untouched w w' -> log_grows w w'.
Proof. intros (_ & _ & H). by apply log_grows_same. Qed.

Lemma log_grows_logged fault line w : log_grows w (logged fault line w).
Proof.
  unfold log_grows, logged, logw_Write. cbn.
  destruct (lw_closed (fs_logw (fs w))); [apply (log_grows_refl w) |].
  destruct fault; cbn; by eexists.
Qed.

Lemma log_grows_new_file f w :
  f_open f = false -> log_grows w (set_heap w (heap w ++ [f])).
Proof. intros _. by apply log_grows_same. Qed.

(** What [Open] and [Create] do to the accounting: nothing, or they set
    the flag of the file and add one to the count. *)
Lemma Open_effect o r w :
  (Open o r w).1 = w
  \/ exists f,
       heap w !! r = Some f /\ f_open f = false /\ 0 <= fs_open (fs w)
       /\ heap (Open o r w).1 = <[r := set_f_open f true]> (heap w)
       /\ fs_open (fs (Open o r w).1) = int (fs_open (fs w) + 1)
       /\ fs_logw (fs (Open o r w).1) = fs_logw (fs w).
Proof.
  unfold Open, os.Open, os.new_File. unfold_M.
  destruct (heap w !! r) as [f|] eqn:Hf; [| by left].
  destruct (Z.ltb_spec (fs_open (fs w)) 0); [by left |].
  destruct (f_open f) eqn:Ho; [by left |].
  destruct (name f) as [nm|]; [| by left].
  destruct (fault_open o); [by left |].
  destruct (dir w !! nm); [| by left].
  right. exists f. cbn. rewrite Hf. done.
Qed.

Lemma Create_effect o r w :
  (heap (Create o r w).1 = heap w /\ fs (Create o r w).1 = fs w)
  \/ exists f,
       heap w !! r = Some f /\ f_open f = false /\ 0 <= fs_open (fs w)
       /\ heap (Create o r w).1 = <[r := set_f_open f true]> (heap w)
       /\ fs_open (fs (Create o r w).1) = int (fs_open (fs w) + 1)
       /\ fs_logw (fs (Create o r w).1) = fs_logw (fs w).
Proof.
  unfold Create, os.Create, os.new_File. unfold_M.
  destruct (heap w !! r) as [f|] eqn:Hf; [| by left].
  destruct (Z.ltb_spec (fs_open (fs w)) 0); [by left |].
  destruct (f_open f) eqn:Ho; [by left |].
  destruct (name f) as [nm|]; [| by left].
  destruct (fault_open o); [by left |].
  right. exists f. cbn. rewrite Hf. done.
Qed.

(** What [Close] of a handle does: nothing, or it clears the flag of the
    file and takes one from the count, and may write to the log. *)
Lemma fileWrap_Close_effect FTS o fw w :
  (fileWrap_Close FTS o fw w).1 = w
  \/ exists f,
       heap w !! fw_f fw = Some f /\ f_open f = true
       /\ heap (fileWrap_Close FTS o fw w).1
          = <[fw_f fw := set_f_open f false]> (heap w)
       /\ fs_open (fs (fileWrap_Close FTS o fw w).1) = int (fs_open (fs w) - 1)
       /\ log_grows w (fileWrap_Close FTS o fw w).1.
Proof.
  unfold fileWrap_Close, os.Close. unfold_M.
  destruct (heap w !! fw_f fw) as [f|] eqn:Hf; [| by left].
  destruct (f_open f) eqn:Ho; [| by left].
  right. exists f. cbn. rewrite Hf. cbn.
  replace (fs_open (fs w) + -1) with (fs_open (fs w) - 1) by lia.
  destruct (files w !! fw_File fw) as [osf|];
    [| split_and!; try done; by apply log_grows_same].
  destruct (of_closed osf).
  - step_log. cbn. split_and!; try done.
    eapply log_grows_trans; [| apply log_grows_logged]. by apply log_grows_same.
  - destruct (fault_close o).
    + step_log. cbn. split_and!; try done.
      eapply log_grows_trans; [| apply log_grows_logged]. by apply log_grows_same.
    + cbn. split_and!; try done. by apply log_grows_same.
Qed.

(** What [Close] of the storage does: nothing on a closed storage, a log
    line on a busy one, and on an idle one the count becomes -1. *)
Lemma Close_effect o w :
  (fs_open (fs w) < 0 /\ (Close o w).1 = w)
  \/ (0 < fs_open (fs w) /\ steady w (Close o w).1
      /\ log_grows w (Close o w).1)
  \/ (fs_open (fs w) = 0 /\ fs_open (fs (Close o w).1) = -1
      /\ heap (Close o w).1 = heap w
      /\ lw_written (fs_logw (fs (Close o w).1)) = lw_written (fs_logw (fs w))).
Proof.
  unfold Close, flock_release. unfold_M.
  destruct (Z.ltb_spec (fs_open (fs w)) 0); [by left |]. right. cbn.
  destruct (Z.gtb_spec (fs_open (fs w)) 0).
  - left. step_log. cbn. split; [lia |]. split.
    + split; [done |]. exists []. by rewrite app_nil_r.
    + eapply log_grows_trans; [| apply log_grows_logged]. by apply log_grows_same.
  - right. cbn. split; [lia | done].
Qed.

Ltac steady_side :=
  first [ exact steady_refl | exact steady_trans | exact steady_untouched
        | exact steady_logged | exact steady_new_file ].

Ltac log_side :=
  first [ exact log_grows_refl | exact log_grows_trans
        | exact log_grows_untouched | exact log_grows_logged
        | exact log_grows_new_file ].

Lemma accounted_steady w w' : accounted w -> steady w w' -> accounted w'.
Proof.
  intros Hacc (Hc & extra & Hh & Hextra). unfold accounted.
  rewrite Hc, Hh, open_flags_app, (open_flags_closed extra Hextra), Nat.add_0_r.
  exact Hacc.
Qed.

Lemma steady_after FTS o c w :
  match c with
  | call_Close | call_fileWrap_Close _ | call_Open _ | call_Create _ => True
  | _ => steady w (after FTS o c w)
  end.
Proof.
  destruct c; cbn [after]; try done.
  - apply preserves_Lock; steady_side.
  - apply preserves_Release; steady_side.
  - apply preserves_Log; steady_side.
  - apply preserves_GetFile; steady_side.
  - apply preserves_GetFiles; steady_side.
  - apply preserves_GetManifest; steady_side.
  - apply preserves_SetManifest; steady_side.
  - apply preserves_Remove; steady_side.
Qed.

(** One call keeps the accounting, as long as the count fits an [int]. *)
Lemma accounted_after FTS o c w :
  accounted w -> Z.of_nat (length (heap w)) < 2 ^ 63 ->
  accounted (after FTS o c w).
Proof.
  intros Hacc Hlen.
  pose proof (steady_after FTS o c w) as Hst.
  pose proof (open_flags_le (heap w)) as Hle.
  destruct c; try (by eapply accounted_steady); clear Hst; cbn [after].
  - (* Close *)
    destruct (Close_effect o w) as [(_ & ->) | [(_ & Hs & _) | (Hz & Hc & Hh & _)]];
      [done | by eapply accounted_steady |].
    left. rewrite Hc, Hh. split; [done |].
    destruct Hacc as [(Hm & _) | Hacc]; lia.
  - (* fileWrap.Close *)
    destruct (fileWrap_Close_effect FTS o fw w)
      as [-> | (f & Hf & Ho & Hh & Hc & _)]; [done |].
    pose proof (open_flags_insert (heap w) (fw_f fw) f false Hf) as Hins.
    rewrite Ho in Hins. cbn [bit] in Hins.
    destruct Hacc as [(_ & Hz) | Hacc].
    { pose proof (open_flags_zero_lookup _ _ _ Hz Hf). congruence. }
    right. rewrite Hc, Hh. rewrite int_small by lia. lia.
  - (* Open *)
    destruct (Open_effect o r w) as [-> | (f & Hf & Ho & Ha & Hh & Hc & _)];
      [done |].
    pose proof (open_flags_insert (heap w) r f true Hf) as Hins.
    rewrite Ho in Hins. cbn [bit] in Hins.
    pose proof (open_flags_le (<[r := set_f_open f true]> (heap w))) as Hle'.
    rewrite length_insert in Hle'.
    destruct Hacc as [(Hm & _) | Hacc]; [lia |].
    right. rewrite Hc, Hh. rewrite int_small by lia. lia.
  - (* Create *)
    destruct (Create_effect o r w)
      as [(Hh & Hfs) | (f & Hf & Ho & Ha & Hh & Hc & _)].
    { unfold accounted. by rewrite Hh, Hfs. }
    pose proof (open_flags_insert (heap w) r f true Hf) as Hins.
    rewrite Ho in Hins. cbn [bit] in Hins.
    pose proof (open_flags_le (<[r := set_f_open f true]> (heap w))) as Hle'.
    rewrite length_insert in Hle'.
    destruct Hacc as [(Hm & _) | Hacc]; [lia |].
    right. rewrite Hc, Hh. rewrite int_small by lia. lia.
Qed.

(** No call makes the heap shorter. *)
Lemma heap_grows FTS o c w :
  (length (heap w) <= length (heap (after FTS o c w)))%nat.
Proof.
  pose proof (steady_after FTS o c w) as Hst.
  destruct c;
    try (destruct Hst as (_ & extra & -> & _); rewrite length_app; lia);
    clear Hst; cbn [after].
  - destruct (Close_effect o w)
      as [(_ & ->) | [(_ & (_ & extra & -> & _) & _) | (_ & _ & -> & _)]];
      rewrite ?length_app; lia.
  - destruct (fileWrap_Close_effect FTS o fw w)
      as [-> | (f & _ & _ & -> & _)]; rewrite ?length_insert; lia.
  - destruct (Open_effect o r w) as [-> | (f & _ & _ & _ & -> & _)];
      rewrite ?length_insert; lia.
  - destruct (Create_effect o r w) as [(-> & _) | (f & _ & _ & _ & -> & _)];
      rewrite ?length_insert; lia.
Qed.

Lemma heap_grows_all FTS cs w :
  (length (heap w) <= length (heap (after_all FTS cs w)))%nat.
Proof.
  revert w. induction cs as [|[o c] cs IH]; intros w; cbn [after_all]; [done |].
  etransitivity; [apply (heap_grows FTS o c) | apply IH].
Qed.

(** X6: the count of open files is kept right by every call.  In a world
    where the storage is closed with the count -1 and no file flagged
    open, or active with the count equal to the number of file objects
    flagged open, every sequence of calls leads to such a world again, as
    long as the file objects are fewer than 2^63. *)
Theorem accounted_invariant FTS (cs : list (OS * call)) (w : World) :
  accounted w ->
  Z.of_nat (length (heap (after_all FTS cs w))) < 2 ^ 63 ->
  accounted (after_all FTS cs w).
Proof.
  revert w. induction cs as [|[o c] cs IH]; intros w Hacc Hlen;
    cbn [after_all] in *; [done |].
  apply IH; [| done].
  apply accounted_after; [done |].
  pose proof (heap_grows_all FTS cs (after FTS o c w)).
  pose proof (heap_grows FTS o c w). lia.
Qed.

Lemma accounted_invariant_witness :
  accounted
    (after_all kind_text
       [(quiet, call_Create 0%nat); (quiet, call_GetFile 4 TypeTable);
        (quiet, call_Close)]
       (storage_with ∅ [mkfile 3 TypeTable false] 0)).
Proof.
  apply accounted_invariant; [right; reflexivity | by vm_compute].
Defined.

(** A closed storage stays closed over one call. *)
Lemma closed_after FTS o c w :
  fs_open (fs w) = -1 -> open_flags (heap w) = O ->
  fs_open (fs (after FTS o c w)) = -1
  /\ open_flags (heap (after FTS o c w)) = O.
Proof.
  intros Hc Hz.
  pose proof (steady_after FTS o c w) as Hst.
  destruct c;
    try (destruct Hst as (-> & extra & -> & Hex);
         by rewrite open_flags_app, (open_flags_closed extra Hex), Hz);
    clear Hst; cbn [after].
  - destruct (Close_effect o w) as [(_ & ->) | [(? & _) | (? & _)]]; [done | lia..].
  - destruct (fileWrap_Close_effect FTS o fw w)
      as [-> | (f & Hf & Ho & _)]; [done |].
    pose proof (open_flags_zero_lookup _ _ _ Hz Hf). congruence.
  - destruct (Open_effect o r w) as [-> | (f & _ & _ & ? & _)]; [done | lia].
  - destruct (Create_effect o r w) as [(-> & ->) | (f & _ & _ & ? & _)];
      [done | lia].
Qed.

(** X7: closing is final.  Once the storage is closed (count -1, no file
    flagged open), no sequence of calls makes it active again or flags a
    file open. *)
Theorem closed_forever FTS (cs : list (OS * call)) (w : World) :
  fs_open (fs w) = -1 -> open_flags (heap w) = O ->
  fs_open (fs (after_all FTS cs w)) = -1
  /\ open_flags (heap (after_all FTS cs w)) = O.
Proof.
  revert w. induction cs as [|[o c] cs IH]; intros w Hc Hz;
    cbn [after_all]; [done |].
  destruct (closed_after FTS o c w Hc Hz) as (Hc' & Hz'). by apply IH.
Qed.

Lemma closed_forever_witness :
  fs_open (fs (after_all kind_text
                 [(quiet, call_Open 0%nat); (quiet, call_Close);
                  (quiet, call_GetFile 4 TypeTable)]
                 (storage_with ∅ [mkfile 3 TypeTable false] (-1)))) = -1
  /\ open_flags (heap (after_all kind_text
                         [(quiet, call_Open 0%nat); (quiet, call_Close);
                          (quiet, call_GetFile 4 TypeTable)]
                         (storage_with ∅ [mkfile 3 TypeTable false] (-1))))
     = O.
Proof.
  apply closed_forever; reflexivity.
Defined.

Lemma log_grows_after FTS o c w : log_grows w (after FTS o c w).
Proof.
  destruct c; cbn [after].
  - apply preserves_Lock; log_side.
  - apply preserves_Release; log_side.
  - apply preserves_Log; log_side.
  - apply preserves_GetFile; log_side.
  - apply preserves_GetFiles; log_side.
  - apply preserves_GetManifest; log_side.
  - apply preserves_SetManifest; log_side.
  - destruct (Close_effect o w) as [(_ & ->) | [(_ & _ & H) | (_ & _ & _ & H)]];
      [apply log_grows_refl | done |].
    unfold log_grows. rewrite H. apply (log_grows_refl w).
  - destruct (fileWrap_Close_effect FTS o fw w) as [-> | (f & _ & _ & _ & _ & H)];
      [apply log_grows_refl | done].
  - destruct (Open_effect o r w) as [-> | (f & _ & _ & _ & _ & _ & H)];
      [apply log_grows_refl | by apply log_grows_same].
  - destruct (Create_effect o r w) as [(_ & H) | (f & _ & _ & _ & _ & _ & H)];
      apply log_grows_same; [by rewrite H | done].
  - apply preserves_Remove; log_side.
Qed.

(** X8: the log is append-only.  Whatever calls are made, what the log held
    before is still there, at the front of what it holds after. *)
Theorem log_append_only FTS (cs : list (OS * call)) (w : World) :
  exists s,
    lw_written (fs_logw (fs (after_all FTS cs w)))
    = lw_written (fs_logw (fs w)) +:+ s.
Proof.
  change (log_grows w (after_all FTS cs w)).
  revert w. induction cs as [|[o c] cs IH]; intros w; cbn [after_all].
  - apply log_grows_refl.
  - eapply log_grows_trans; [apply (log_grows_after FTS o c) | apply IH].
Qed.


(* ===================================================================== *)
(** ** The open flag between Open and Close *)
(* ===================================================================== *)

Lemma open_flags_pos h r f :
  h !! r = Some f -> f_open f = true -> (0 < open_flags h)%nat.
Proof.
  intros Hr Ho. destruct (open_flags h) eqn:Hz; [| lia].
  pose proof (open_flags_zero_lookup h r f Hz Hr). congruence.
Qed.

(** A storage that is accounted for and has a file flagged open is
    active, and its count fits an [int]. *)
Lemma flagged_active w r f :
  accounted w -> Z.of_nat (length (heap w)) < 2 ^ 63 ->
  heap w !! r = Some f -> f_open f = true ->
  0 < fs_open (fs w) < 2 ^ 63.
Proof.
  intros Hacc Hlen Hr Ho.
  pose proof (open_flags_pos _ _ _ Hr Ho).
  pose proof (open_flags_le (heap w)).
  destruct Hacc as [(_ & Hz) | Hacc]; lia.
Qed.

(** What a successful [Open] or [Create] did to the file object. *)
Lemma Open_Create_success o r w f w1 h :
  heap w !! r = Some f ->
  Open o r w = (w1, Return (Ok h)) \/ Create o r w = (w1, Return (Ok h)) ->
  f_open f = false /\ fw_f h = r
  /\ heap w1 = <[r := set_f_open f true]> (heap w)
  /\ (w1 = (Open o r w).1 \/ w1 = (Create o r w).1).
Proof.
  intros Hf [Hrun | Hrun].
  - assert (Hw : w1 = (Open o r w).1) by (by rewrite Hrun).
    revert Hrun. unfold Open, os.Open, os.new_File. unfold_M. rewrite Hf.
    destruct (Z.ltb_spec (fs_open (fs w)) 0); [done |].
    destruct (f_open f); [done |].
    destruct (name f) as [nm|]; [| done].
    destruct (fault_open o); [done |].
    destruct (dir w !! nm); [| done].
    cbn. rewrite Hf. cbn. intros [= <- <-]. split_and!; try done. by left.
  - assert (Hw : w1 = (Create o r w).1) by (by rewrite Hrun).
    revert Hrun. unfold Create, os.Create, os.new_File. unfold_M. rewrite Hf.
    destruct (Z.ltb_spec (fs_open (fs w)) 0); [done |].
    destruct (f_open f); [done |].
    destruct (name f) as [nm|]; [| done].
    destruct (fault_open o); [done |].
    cbn. rewrite Hf. cbn. intros [= <- <-]. split_and!; try done. by right.
Qed.

(** The flag of a file object stays set over every call that is not a
    [Close] through a handle of that object. *)
Lemma flag_kept_after FTS o c w r f :
  accounted w -> Z.of_nat (length (heap w)) < 2 ^ 63 ->
  heap w !! r = Some f -> f_open f = true -> ~ closes r c ->
  heap (after FTS o c w) !! r = Some f.
Proof.
  intros Hacc Hlen Hr Ho Hc.
  pose proof (steady_after FTS o c w) as Hst.
  pose proof (flagged_active w r f Hacc Hlen Hr Ho) as Hact.
  destruct c;
    try (destruct Hst as (_ & extra & -> & _); by apply lookup_app_l_Some);
    clear Hst; cbn [after].
  - destruct (Close_effect o w)
      as [(_ & ->) | [(_ & (_ & extra & -> & _) & _) | (Hz & _)]];
      [done | by apply lookup_app_l_Some | lia].
  - destruct (fileWrap_Close_effect FTS o fw w)
      as [-> | (g & _ & _ & -> & _)]; [done |].
    cbn in Hc. by rewrite list_lookup_insert_ne.
  - destruct (Open_effect o r0 w) as [-> | (g & Hg & Hgo & _ & -> & _)];
      [done |].
    destruct (decide (r0 = r)) as [-> | Hne]; [congruence |].
    by rewrite list_lookup_insert_ne.
  - destruct (Create_effect o r0 w)
      as [(-> & _) | (g & Hg & Hgo & _ & -> & _)]; [done |].
    destruct (decide (r0 = r)) as [-> | Hne]; [congruence |].
    by rewrite list_lookup_insert_ne.
Qed.

Lemma flag_kept_all FTS cs w r f :
  accounted w -> Z.of_nat (length (heap (after_all FTS cs w))) < 2 ^ 63 ->
  heap w !! r = Some f -> f_open f = true ->
  Forall (fun oc => ~ closes r oc.2) cs ->
  heap (after_all FTS cs w) !! r = Some f /\ accounted (after_all FTS cs w).
Proof.
  revert w. induction cs as [|[o c] cs IH]; intros w Hacc Hlen Hr Ho Hcs;
    cbn [after_all] in *; [done |].
  pose proof (heap_grows_all FTS cs (after FTS o c w)) as Hg.
  pose proof (heap_grows FTS o c w) as Hg1.
  apply Forall_cons in Hcs as [Hc Hcs].
  apply IH; [| done | | done | done].
  - apply accounted_after; [done | lia].
  - apply flag_kept_after; [done | lia | done | done | done].
Qed.

(** C5, as the code has it: the exclusion is by the open flag of the file
    object that one [GetFile] call returned.  From a successful [Open]
    or [Create] on an object, over every sequence of calls without a
    [Close] through a handle of that object, the flag stays set and
    [Open] and [Create] on the object fail with [errFileOpen] and change
    nothing.  A [Close] through any handle of the object, the one just
    returned or an older one that was closed before, clears the flag and
    takes one from the count; after it [Create] on the object succeeds
    again, and so does [Open] when the file exists, as long as the
    operating system opens the file. *)
Theorem one_handle_per_file_object FTS o w r f w1 h cs :
  accounted w -> heap w !! r = Some f ->
  Open o r w = (w1, Return (Ok h)) \/ Create o r w = (w1, Return (Ok h)) ->
  Forall (fun oc => ~ closes r oc.2) cs ->
  Z.of_nat (length (heap (after_all FTS cs w1))) < 2 ^ 63 ->
  let w2 := after_all FTS cs w1 in
  fw_f h = r
  /\ heap w2 !! r = Some (set_f_open f true)
  /\ (forall o', Open o' r w2 = (w2, Return (Err errFileOpen)))
  /\ (forall o', Create o' r w2 = (w2, Return (Err errFileOpen)))
  /\ (forall o1 fw,
        fw_f fw = r -> is_Some (files w2 !! fw_File fw) ->
        exists w3 e,
          fileWrap_Close FTS o1 fw w2 = (w3, Return e)
          /\ heap w3 !! r = Some (set_f_open f false)
          /\ fs_open (fs w3) = fs_open (fs w2) - 1
          /\ dir w3 = dir w2
          /\ forall o2 nm, name f = Return nm -> fault_open o2 = None ->
               (exists w4 h', Create o2 r w3 = (w4, Return (Ok h')))
               /\ (is_Some (dir w2 !! nm) ->
                   exists w4 h', Open o2 r w3 = (w4, Return (Ok h')))).
Proof.
  intros Hacc Hf Hrun Hcs Hlen w2.
  destruct (Open_Create_success o r w f w1 h Hf Hrun) as (Ho & Hh & Hheap & Hw1).
  pose proof (heap_grows_all FTS cs w1) as Hg.
  assert (Hlen1 : Z.of_nat (length (heap w)) < 2 ^ 63).
  { rewrite Hheap, length_insert in Hg. lia. }
  assert (Hacc1 : accounted w1).
  { destruct Hw1 as [-> | ->].
    - by apply (accounted_after FTS o (call_Open r)).
    - by apply (accounted_after FTS o (call_Create r)). }
  assert (Hf1 : heap w1 !! r = Some (set_f_open f true)).
  { rewrite Hheap. apply list_lookup_insert_eq. by eapply lookup_lt_Some. }
  destruct (flag_kept_all FTS cs w1 r (set_f_open f true))
    as (Hf2 & Hacc2); [done.. |].
  fold w2 in Hf2, Hacc2, Hlen.
  pose proof (flagged_active w2 r _ Hacc2 Hlen Hf2 eq_refl) as Hact.
  split; [done |]. split; [done |].
  destruct (flag_set_excludes FTS o w2 r (set_f_open f true))
    as (_ & _ & Hclose); [lia | done | done |].
  split_and!.
  - intros o'.
    by destruct (flag_set_excludes FTS o' w2 r (set_f_open f true))
      as (H & _); [lia | done | done |].
  - intros o'.
    by destruct (flag_set_excludes FTS o' w2 r (set_f_open f true))
      as (_ & H & _); [lia | done | done |].
  - intros o1 fw Hfw Hfile.
    destruct (flag_set_excludes FTS o1 w2 r (set_f_open f true))
      as (_ & _ & H); [lia | done | done |].
    destruct (H o1 fw Hfw Hfile Hact) as (w3 & e & Hc & Hh3 & Hcnt & Hdir & _).
    exists w3, e. split_and!; [done.. |].
    intros o2 nm Hnm Hfo.
    destruct (flag_set_excludes FTS o2 w2 r (set_f_open f true))
      as (_ & _ & H2); [lia | done | done |].
    destruct (H2 o1 fw Hfw Hfile Hact) as (w3' & e' & Hc' & _ & _ & _ & Hre).
    rewrite Hc in Hc'. injection Hc' as <- <-.
    by apply Hre.
Qed.

Lemma one_handle_per_file_object_witness :
  Open quiet 0
    (after_all kind_text
       [(quiet, call_GetFile 3 TypeTable); (quiet, call_Close);
        (quiet, call_Remove 0%nat); (quiet, call_Create 1%nat)]
       (Create quiet 0 (storage_with ∅ [mkfile 3 TypeTable false] 0)).1)
  = (after_all kind_text
       [(quiet, call_GetFile 3 TypeTable); (quiet, call_Close);
        (quiet, call_Remove 0%nat); (quiet, call_Create 1%nat)]
       (Create quiet 0 (storage_with ∅ [mkfile 3 TypeTable false] 0)).1,
     Return (Err errFileOpen)).
Proof.
  destruct (one_handle_per_file_object kind_text quiet
              (storage_with ∅ [mkfile 3 TypeTable false] 0) 0
              (mkfile 3 TypeTable false)
              (Create quiet 0 (storage_with ∅ [mkfile 3 TypeTable false] 0)).1
              (mkfileWrap 0 0)
              [(quiet, call_GetFile 3 TypeTable); (quiet, call_Close);
               (quiet, call_Remove 0%nat); (quiet, call_Create 1%nat)])
    as (_ & _ & H & _).
  - right. reflexivity.
  - reflexivity.
  - right. by vm_compute.
  - repeat constructor; intros [].
  - by vm_compute.
  - exact (H quiet).
Defined.





(* ===================================================================== *)
(** ** How the operations compose *)
(* ===================================================================== *)

(** X9: what [SetManifest] published, [GetManifest] reads back: after a
    successful [SetManifest] of a manifest file, [GetManifest] returns a
    new file that is the manifest of the same number, provided it can
    open and read CURRENT. *)
Theorem SetManifest_GetManifest o o' w r f2 w1 :
  0 <= fs_open (fs w) -> heap w !! r = Some f2 ->
  f_t f2 = TypeManifest -> (f_num f2 < 2 ^ 64)%N ->
  SetManifest o (file_ptr r) w = (w1, Return None) ->
  fault_open o' = None -> fault_read o' = None ->
  exists w2 p,
    GetManifest o' w1 = (w2, Return (Ok p))
    /\ heap w2 !! p = Some (mkfile (f_num f2) TypeManifest false).
Proof.
  intros Ha Hf Ht Hnum Hrun Hfo Hfr.
  assert (Hst : steady w w1).
  { pose proof (preserves_SetManifest steady steady_refl steady_trans
                  steady_untouched steady_logged o (file_ptr r) w) as H.
    by rewrite Hrun in H. }
  destruct Hst as (Hcount & _).
  assert (Hcur : dir w1 !! "CURRENT"%string
                 = Some (("MANIFEST-" +:+ fmt.decimal_pad 6 (f_num f2)) +:+ newline)).
  { destruct (decide (fault_open o = None /\ fault_write o = None
                      /\ fault_rename o = None)) as [(H1 & H2 & H3) | Hno].
    - destruct (SetManifest_published o w r f2) as (w'' & Hrun' & Hdir);
        [done.. |].
      rewrite Hrun in Hrun'. injection Hrun' as ->.
      rewrite Hdir. apply lookup_insert_eq.
    - by destruct (SetManifest_failed o w r f2 w1). }
  destruct (GetManifest_returns_any_kind o' w1 TypeManifest (f_num f2)
              ("MANIFEST-" +:+ fmt.decimal_pad 6 (f_num f2)))
    as (w2 & Hget & Hheap); [lia | done | done | done | done | done | done |].
  exists w2, (length (heap w1)). split; [done |].
  rewrite Hheap. by apply list_lookup_middle.
Qed.

Lemma SetManifest_GetManifest_witness :
  exists w2 p,
    GetManifest quiet
      (SetManifest quiet (file_ptr 0)
         (storage_with ∅ [mkfile 1234567 TypeManifest false] 0)).1
    = (w2, Return (Ok p))
    /\ heap w2 !! p = Some (mkfile 1234567 TypeManifest false).
Proof.
  apply (SetManifest_GetManifest quiet quiet
           (storage_with ∅ [mkfile 1234567 TypeManifest false] 0) 0
           (mkfile 1234567 TypeManifest false));
    [by vm_compute | reflexivity | reflexivity | reflexivity
    | by vm_compute | reflexivity | reflexivity].
Defined.

(** X10: a failed [SetManifest] leaves the pointer alone.  When it returns
    an error, CURRENT and every other entry of the directory, the
    temporary file CURRENT.<num> apart, are what they were. *)
Theorem SetManifest_error_keeps_CURRENT o w r f2 w' e :
  heap w !! r = Some f2 ->
  SetManifest o (file_ptr r) w = (w', Return (Some e)) ->
  dir w' !! "CURRENT"%string = dir w !! "CURRENT"%string
  /\ forall nm,
       nm <> "CURRENT" +:+ "." +:+ fmt.decimal (f_num f2) ->
       dir w' !! nm = dir w !! nm.
Proof.
  intros Hf Hrun.
  assert (Hall : forall nm,
            nm <> "CURRENT" +:+ "." +:+ fmt.decimal (f_num f2) ->
            dir w' !! nm = dir w !! nm).
  { intros nm Hnm. revert Hrun.
    unfold SetManifest, os.Create, os.Write, rename, os.Close, os.new_File.
    unfold_M. cbv beta iota.
    destruct (Z.ltb_spec (fs_open (fs w)) 0); [by intros [= <- _] |].
    rewrite Hf. cbv beta iota.
    destruct (negb (bool_decide (f_t f2 = TypeManifest))); [by intros [= <- _] |].
    cbn. destruct (fault_open o) as [text|].
    { step_log. by intros [= <- _]. }
    cbn. destruct (name f2) as [nm2|]; [| done].
    cbn. rewrite list_lookup_middle by done. cbn.
    destruct (fault_write o) as [[k text]|].
    { cbn. rewrite list_lookup_middle by done. cbn.
      destruct (fault_close o); repeat step_log; intros [= <- _]; cbn;
        by rewrite !lookup_insert_ne. }
    destruct (fault_rename o) as [text|].
    { cbn. rewrite list_lookup_middle by done. cbn.
      destruct (fault_close o); repeat step_log; intros [= <- _]; cbn;
        by rewrite !lookup_insert_ne. }
    cbn. rewrite lookup_insert_eq. cbn.
    rewrite list_lookup_middle by done. cbn.
    destruct (fault_close o); repeat step_log; done. }
  split; [| done]. apply Hall. symmetry. apply tmp_not_CURRENT.
Qed.

Lemma SetManifest_error_keeps_CURRENT_witness :
  dir (SetManifest
         (mkOS (clock quiet) None None None None None (Some "EXDEV"%string)
            None None (fun _ => None))
         (file_ptr 0)
         (storage_with {[ "CURRENT"%string := "MANIFEST-000001" +:+ newline ]}
            [mkfile 2 TypeManifest false] 0)).1 !! "CURRENT"%string
  = Some ("MANIFEST-000001" +:+ newline).
Proof.
  destruct (SetManifest_error_keeps_CURRENT
              (mkOS (clock quiet) None None None None None (Some "EXDEV"%string)
                 None None (fun _ => None))
              (storage_with {[ "CURRENT"%string := "MANIFEST-000001" +:+ newline ]}
                 [mkfile 2 TypeManifest false] 0)
              0 (mkfile 2 TypeManifest false) _ _ eq_refl
              ltac:(by vm_compute)) as (H & _).
  exact H.
Defined.

(** X11: without a pointer file [GetManifest] returns the bare error of the
    system, the path taken off: "no such file or directory" when CURRENT
    is missing, the error of the open otherwise; nothing changes. *)
Theorem GetManifest_without_CURRENT o w :
  0 <= fs_open (fs w) ->
  (fault_open o = None -> dir w !! "CURRENT"%string = None ->
   GetManifest o w = (w, Return (Err (oserr os.ENOENT))))
  /\ (forall text, fault_open o = Some text ->
      GetManifest o w = (w, Return (Err (oserr (syserr text))))).
Proof.
  intros Ha. split.
  - intros Hfo Hcur. unfold GetManifest, os.Open. unfold_M.
    destruct (Z.ltb_spec (fs_open (fs w)) 0); [lia |].
    by rewrite Hfo, Hcur.
  - intros text Hfo. unfold GetManifest, os.Open. unfold_M.
    destruct (Z.ltb_spec (fs_open (fs w)) 0); [lia |].
    by rewrite Hfo.
Qed.

Lemma GetManifest_without_CURRENT_witness :
  GetManifest quiet fresh_storage
  = (fresh_storage, Return (Err (oserr os.ENOENT))).
Proof.
  destruct (GetManifest_without_CURRENT quiet fresh_storage) as (H & _);
    [by vm_compute |].
  exact (H eq_refl eq_refl).
Defined.

(** X12: the lock of the storage has one holder.  On an active storage
    without a lock out, [Lock] returns a new lock; while it is out a
    second [Lock] fails with [ErrLocked]; [Release] of any other lock
    changes nothing; [Release] of the lock frees the storage, the next
    [Lock] returns another lock, and releasing the old one once more
    does not free that. *)
Theorem Lock_Release_protocol (w : World) :
  0 <= fs_open (fs w) -> fs_slock (fs w) = None ->
  let l := nlocks w in
  let w1 := (Lock w).1 in
  let w2 := (Release l w1).1 in
  let w3 := (Lock w2).1 in
  (Lock w).2 = Return (Ok l)
  /\ Lock w1 = (w1, Return (Err ErrLocked))
  /\ (forall l', l' <> l -> Release l' w1 = (w1, Return tt))
  /\ fs_slock (fs w2) = None
  /\ (Lock w2).2 = Return (Ok (S l))
  /\ Release l w3 = (w3, Return tt)
  /\ Lock w3 = (w3, Return (Err ErrLocked)).
Proof.
  intros Ha Hs l w1 w2 w3.
  assert (Hact : (fs_open (fs w) <? 0) = false) by (apply Z.ltb_ge; lia).
  assert (Hw1 : Lock w
    = (set_nlocks (set_fs w (set_fs_slock (fs w) (Some l))) (S l),
       Return (Ok l))).
  { unfold Lock. unfold_M. by rewrite Hact, Hs. }
  assert (Hw2 : Release l w1 = (set_nlocks w (S l), Return tt)).
  { subst w1. rewrite Hw1. unfold Release. unfold_M. cbn.
    rewrite decide_True by done. cbn. destruct w as [[] ? ? ? ?].
    cbn in *. by rewrite Hs. }
  assert (Hw3 : Lock w2
    = (set_nlocks (set_fs w (set_fs_slock (fs w) (Some (S l)))) (S (S l)),
       Return (Ok (S l)))).
  { subst w2. rewrite Hw2. unfold Lock. unfold_M. cbn. by rewrite Hact, Hs. }
  subst w3. rewrite Hw3. subst w2. rewrite Hw2. subst w1. rewrite Hw1.
  cbn [fst snd]. split_and!.
  - done.
  - unfold Lock. unfold_M. cbn. by rewrite Hact.
  - intros l' Hne. unfold Release. unfold_M. cbn.
    by rewrite decide_False by (intros [=]; done).
  - exact Hs.
  - done.
  - unfold Release. unfold_M. cbn.
    by rewrite decide_False by (intros [=]; lia).
  - unfold Lock. unfold_M. cbn. by rewrite Hact.
Qed.

Lemma Lock_Release_protocol_witness :
  (Lock fresh_storage).2 = Return (Ok 0%nat)
  /\ Lock (Lock fresh_storage).1
     = ((Lock fresh_storage).1, Return (Err ErrLocked)).
Proof.
  destruct (Lock_Release_protocol fresh_storage) as (H1 & H2 & _);
    [by vm_compute | reflexivity |].
  exact (conj H1 H2).
Defined.

(** X13: a handle is closed once.  [Create] on a file that is not open,
    followed by [Close] of the handle it returned, leaves the count and
    the file objects as they were before the [Create]; a second [Close]
    of that handle fails with [ErrClosed] and changes nothing. *)
Theorem Create_Close_restores FTS o o1 o2 w r f nm :
  0 <= fs_open (fs w) < 2 ^ 63 - 1 -> heap w !! r = Some f ->
  f_open f = false -> name f = Return nm ->
  fault_open o = None -> fault_close o1 = None ->
  exists w1 h w2,
    Create o r w = (w1, Return (Ok h))
    /\ heap w1 !! r = Some (set_f_open f true)
    /\ fileWrap_Close FTS o1 h w1 = (w2, Return None)
    /\ heap w2 = heap w /\ fs w2 = fs w
    /\ fileWrap_Close FTS o2 h w2 = (w2, Return (Some ErrClosed)).
Proof.
  intros Ha Hf Ho Hnm Hfo Hfc.
  pose proof (lookup_lt_Some _ _ _ Hf) as Hlt.
  assert (Hact : (fs_open (fs w) <? 0) = false) by (apply Z.ltb_ge; lia).
  assert (Hf' : f = mkfile (f_num f) (f_t f) false).
  { destruct f as [n t b]. cbn in Ho. by rewrite Ho. }
  assert (Hrun1 : exists w1,
    Create o r w = (w1, Return (Ok (mkfileWrap (length (files w)) r)))
    /\ heap w1 = <[r := set_f_open f true]> (heap w)
    /\ fs w1 = set_fs_open (fs w) (fs_open (fs w) + 1)
    /\ files w1 = files w ++ [mkosFile nm false]).
  { unfold Create, os.Create, os.new_File. unfold_M.
    rewrite Hf, Hact, Ho, Hnm, Hfo. cbn. rewrite Hf. cbn.
    rewrite int_small by lia. by eexists. }
  destruct Hrun1 as (w1 & Hrun1 & Hh1 & Hfs1 & Hfiles1).
  assert (Hf1 : heap w1 !! r = Some (set_f_open f true)).
  { rewrite Hh1. by apply list_lookup_insert_eq. }
  assert (Hrun2 : exists w2,
    fileWrap_Close FTS o1 (mkfileWrap (length (files w)) r) w1 = (w2, Return None)
    /\ heap w2 = heap w /\ fs w2 = fs w).
  { unfold fileWrap_Close, os.Close. unfold_M. cbn. rewrite Hf1. cbn.
    rewrite Hf1. cbn. rewrite Hfiles1, list_lookup_middle by done. cbn.
    rewrite Hfc. eexists. split; [reflexivity |]. cbn. rewrite Hh1, Hfs1. cbn.
    rewrite int_small by lia.
    split.
    - rewrite list_insert_insert_eq. apply list_insert_id. rewrite Hf.
      f_equal. destruct f as [n t b]. cbn in Ho |- *. by rewrite Ho.
    - replace (fs_open (fs w) + 1 + -1) with (fs_open (fs w)) by lia.
      by destruct (fs w). }
  destruct Hrun2 as (w2 & Hrun2 & Hh2 & Hfs2).
  exists w1, (mkfileWrap (length (files w)) r), w2.
  split_and!; [done.. |].
  unfold fileWrap_Close. unfold_M. cbn. by rewrite Hh2, Hf, Ho.
Qed.

Lemma Create_Close_restores_witness :
  exists w1 h w2,
    Create quiet 0 (storage_with ∅ [mkfile 3 TypeTable false] 0)
    = (w1, Return (Ok h))
    /\ heap w1 !! 0%nat = Some (set_f_open (mkfile 3 TypeTable false) true)
    /\ fileWrap_Close kind_text quiet h w1 = (w2, Return None)
    /\ heap w2 = heap (storage_with ∅ [mkfile 3 TypeTable false] 0)
    /\ fs w2 = fs (storage_with ∅ [mkfile 3 TypeTable false] 0)
    /\ fileWrap_Close kind_text quiet h w2 = (w2, Return (Some ErrClosed)).
Proof.
  apply (Create_Close_restores kind_text quiet quiet quiet
           (storage_with ∅ [mkfile 3 TypeTable false] 0) 0
           (mkfile 3 TypeTable false) "000003.sst");
    [by vm_compute | reflexivity..].
Defined.

(** X14: the flag is the file's, not the handle's.  [Close] of a handle
    whose [os.File] is already closed, on a file that is flagged open
    (it was opened again since), still clears the flag and takes one from
    the count, and returns the error of the system, "file already
    closed", not [ErrClosed]. *)
Theorem stale_handle_Close_clears_flag FTS o w fw f osf :
  0 < fs_open (fs w) < 2 ^ 63 ->
  heap w !! fw_f fw = Some f -> f_open f = true ->
  files w !! fw_File fw = Some osf -> of_closed osf = true ->
  exists w',
    fileWrap_Close FTS o fw w
    = (w', Return (Some (oserr (PathError "close"
                                  (os.path_of w (of_name osf)) os.ErrClosed))))
    /\ heap w' = <[fw_f fw := set_f_open f false]> (heap w)
    /\ fs_open (fs w') = fs_open (fs w) - 1
    /\ files w' = files w.
Proof.
  intros Ha Hf Ho Hosf Hcl.
  unfold fileWrap_Close, os.Close. unfold_M. rewrite Hf, Ho. cbn.
  rewrite Hf. cbn. rewrite Hosf, Hcl.
  step_log. eexists. split; [reflexivity |]. cbn.
  rewrite int_small by lia. split_and!; [done | lia | done].
Qed.

Lemma stale_handle_Close_clears_flag_witness :
  files reopened = [mkosFile "000003.sst" true; mkosFile "000003.sst" false]
  /\ exists w',
       fileWrap_Close kind_text quiet (mkfileWrap 0 0) reopened
       = (w', Return (Some (oserr (PathError "close" "db/000003.sst"
                                     os.ErrClosed))))
       /\ heap w' = [mkfile 3 TypeTable false]
       /\ fs_open (fs w') = 0
       /\ files w' = files reopened.
Proof.
  split; [reflexivity |].
  apply (stale_handle_Close_clears_flag kind_text quiet reopened
           (mkfileWrap 0 0) (mkfile 3 TypeTable true)
           (mkosFile "000003.sst" true));
    [by vm_compute | reflexivity..].
Defined.

(** X15: what [Remove] removed cannot be opened.  After a successful
    [Remove] of a file, [Open] on it fails with the system's "no such
    file or directory" for its path and changes nothing, while [Create]
    makes the file anew. *)
Theorem Remove_then_Open FTS o o' w r f w1 :
  0 <= fs_open (fs w) -> heap w !! r = Some f ->
  Remove FTS o r w = (w1, Return None) ->
  fault_open o' = None ->
  exists nm,
    name f = Return nm
    /\ dir w1 !! nm = None
    /\ Open o' r w1
       = (w1, Return (Err (oserr (PathError "open" (os.path_of w nm) os.ENOENT))))
    /\ exists w2 h, Create o' r w1 = (w2, Return (Ok h))
                    /\ dir w2 !! nm = Some EmptyString.
Proof.
  intros Ha Hf Hrun Hfo.
  revert Hrun. unfold Remove, os.Remove. unfold_M. rewrite Hf. cbv beta iota.
  destruct (Z.ltb_spec (fs_open (fs w)) 0); [lia |].
  destruct (f_open f) eqn:Ho; [done |].
  destruct (name f) as [nm|] eqn:Hnm; [| done]. cbn.
  destruct (fault_remove o); [step_log; done |].
  destruct (dir w !! nm) eqn:Hd; [| step_log; done].
  intros [= <-]. exists nm. split; [done |]. split; [apply lookup_delete_eq |].
  split.
  - unfold Open, os.Open. unfold_M.
    repeat (cbv beta iota; cbn [heap fs set_dir dir]; rewrite ?Hf).
    destruct (Z.ltb_spec (fs_open (fs w)) 0); [lia |]. rewrite Ho, Hnm.
    repeat (cbv beta iota; cbn [heap fs set_dir dir]; rewrite ?Hfo).
    by rewrite lookup_delete_eq.
  - unfold Create, os.Create, os.new_File. unfold_M.
    repeat (cbv beta iota; cbn [heap fs set_dir dir]; rewrite ?Hf).
    destruct (Z.ltb_spec (fs_open (fs w)) 0); [lia |]. rewrite Ho, Hnm.
    repeat (cbv beta iota; cbn [heap fs set_dir dir]; rewrite ?Hfo).
    cbn. rewrite Hf. cbn.
    eexists _, _. split; [reflexivity |]. cbn. apply lookup_insert_eq.
Qed.

Lemma Remove_then_Open_witness :
  exists nm,
    name (mkfile 3 TypeTable false) = Return nm
    /\ dir (Remove kind_text quiet 0
              (storage_with {[ "000003.sst"%string := "x"%string ]}
                 [mkfile 3 TypeTable false] 0)).1 !! nm = None
    /\ Open quiet 0
         (Remove kind_text quiet 0
            (storage_with {[ "000003.sst"%string := "x"%string ]}
               [mkfile 3 TypeTable false] 0)).1
       = ((Remove kind_text quiet 0
             (storage_with {[ "000003.sst"%string := "x"%string ]}
                [mkfile 3 TypeTable false] 0)).1,
          Return (Err (oserr (PathError "open"
                                (os.path_of
                                   (storage_with
                                      {[ "000003.sst"%string := "x"%string ]}
                                      [mkfile 3 TypeTable false] 0) nm)
                                os.ENOENT))))
    /\ exists w2 h,
         Create quiet 0
           (Remove kind_text quiet 0
              (storage_with {[ "000003.sst"%string := "x"%string ]}
                 [mkfile 3 TypeTable false] 0)).1
         = (w2, Return (Ok h))
         /\ dir w2 !! nm = Some EmptyString.
Proof.
  apply (Remove_then_Open kind_text quiet quiet
           (storage_with {[ "000003.sst"%string := "x"%string ]}
              [mkfile 3 TypeTable false] 0) 0 (mkfile 3 TypeTable false));
    [by vm_compute | reflexivity | by vm_compute | reflexivity].
Defined.


(* ===================================================================== *)
(** ** Listing files *)
(* ===================================================================== *)

Lemma set_heap_set_heap w a b : set_heap (set_heap w a) b = set_heap w b.
Proof. reflexivity. Qed.

Lemma GetFiles_loop_spec wanted fnn w :
  GetFiles_loop wanted fnn w
  = (set_heap w (heap w ++ listed wanted fnn),
     Return (seq (length (heap w)) (length (listed wanted fnn)))).
Proof.
  revert w. induction fnn as [|fn fnn IH]; intros w; cbn [GetFiles_loop listed].
  - unfold_M. rewrite app_nil_r. by destruct w.
  - destruct (parse _ fn) as [f ok].
    destruct (ok && wanted (f_t f)); [| apply IH].
    unfold_M. rewrite IH. cbn.
    rewrite length_app, Nat.add_1_r, <- app_assoc. done.
Qed.

Lemma elem_of_listed wanted fnn f :
  f ∈ listed wanted fnn
  <-> exists fn, fn ∈ fnn /\ parse (mkfile 0 TypeOther false) fn = (f, true)
                 /\ wanted (f_t f) = true.
Proof.
  induction fnn as [|fn fnn IH]; cbn [listed].
  - split; [by intros ?%elem_of_nil | by intros (fn & ?%elem_of_nil & _)].
  - assert (Hstep :
      (exists fn', fn' ∈ fn :: fnn
                   /\ parse (mkfile 0 TypeOther false) fn' = (f, true)
                   /\ wanted (f_t f) = true)
      <-> (parse (mkfile 0 TypeOther false) fn = (f, true)
           /\ wanted (f_t f) = true)
          \/ f ∈ listed wanted fnn).
    { rewrite IH. split.
      - intros (fn' & [-> | Hin]%elem_of_cons & H); [by left |].
        right. by exists fn'.
      - intros [H | (fn' & Hin & H)]; [exists fn | exists fn'];
          (split; [| done]); apply elem_of_cons; [by left | by right]. }
    rewrite Hstep. clear Hstep IH.
    destruct (parse _ fn) as [g ok].
    destruct ok, (wanted (f_t g)) eqn:Hw; cbn [andb]; rewrite ?elem_of_cons;
      (split; [intros H | intros [[Hp Hw'] | H]]);
      try (injection Hp as ->); try discriminate Hp; try congruence; auto.
    destruct H as [-> | H]; auto.
Qed.

Lemma GetFiles_run o wanted w :
  0 <= fs_open (fs w) -> fault_open o = None -> fault_readdir o = None ->
  exists w',
    GetFiles o wanted w
    = (w', Return (Ok (seq (length (heap w))
                         (length (listed wanted (map_to_list (dir w)).*1)))))
    /\ heap w' = heap w ++ listed wanted (map_to_list (dir w)).*1
    /\ dir w' = dir w
    /\ fs_open (fs w') = fs_open (fs w).
Proof.
  intros Ha Hfo Hfr.
  unfold GetFiles, os.Readdirnames. unfold_M.
  destruct (Z.ltb_spec (fs_open (fs w)) 0); [lia |].
  rewrite Hfo, Hfr.
  destruct (fault_close o) as [text|].
  - step_log. rewrite GetFiles_loop_spec. by eexists.
  - cbn. rewrite GetFiles_loop_spec. by eexists.
Qed.

Lemma elem_of_listed_dir wanted (d : gmap string string) f :
  f ∈ listed wanted (map_to_list d).*1
  <-> exists fn, is_Some (d !! fn)
                 /\ parse (mkfile 0 TypeOther false) fn = (f, true)
                 /\ wanted (f_t f) = true.
Proof.
  rewrite elem_of_listed. split.
  - intros (fn & Hin & Hp & Hw). exists fn. split; [| done].
    apply list_elem_of_fmap in Hin as ([fn' c] & -> & Hin).
    apply elem_of_map_to_list in Hin. by exists c.
  - intros (fn & [c Hc'] & Hp & Hw). exists fn. split; [| done].
    apply list_elem_of_fmap. exists (fn, c). split; [done |].
    by apply elem_of_map_to_list.
Qed.

(** X16: what [GetFiles] lists.  On an active storage whose directory can
    be read, it returns new file objects, one behind the other at the end
    of the heap, none flagged open, each of a wanted kind among the
    three and with a number below 2^64; a descriptor is among them
    exactly when some entry of the directory parses to it.  The files
    there were and the directory stay as they are.  A failure to close
    the directory changes none of this. *)
Theorem GetFiles_lists o wanted w :
  0 <= fs_open (fs w) -> fault_open o = None -> fault_readdir o = None ->
  exists w' fs',
    GetFiles o wanted w
    = (w', Return (Ok (seq (length (heap w)) (length fs'))))
    /\ heap w' = heap w ++ fs' /\ dir w' = dir w
    /\ fs_open (fs w') = fs_open (fs w)
    /\ Forall (fun f => f_open f = false /\ wanted (f_t f) = true
                        /\ f_t f <> TypeOther /\ (f_num f < 2 ^ 64)%N) fs'
    /\ forall f,
         f ∈ fs'
         <-> exists fn, is_Some (dir w !! fn)
                        /\ parse (mkfile 0 TypeOther false) fn = (f, true)
                        /\ wanted (f_t f) = true.
Proof.
  intros Ha Hfo Hfr.
  destruct (GetFiles_run o wanted w Ha Hfo Hfr) as (w' & Hrun & Hh & Hd & Hc).
  exists w', (listed wanted (map_to_list (dir w)).*1).
  split_and!; [done.. | |].
  - apply Forall_forall. intros f (fn & _ & Hp & Hw)%elem_of_listed.
    destruct (parse_cases (mkfile 0 TypeOther false) fn)
      as [Hq | (t & n & Ht & Hn & Hq)]; rewrite Hq in Hp; [done |].
    by injection Hp as <-.
  - intros f. apply elem_of_listed_dir.
Qed.

Lemma GetFiles_lists_witness :
  exists w' fs',
    GetFiles quiet (fun _ => true) table_1_twice
    = (w', Return (Ok (seq (length (heap table_1_twice)) (length fs'))))
    /\ heap w' = heap table_1_twice ++ fs' /\ dir w' = dir table_1_twice
    /\ fs_open (fs w') = fs_open (fs table_1_twice)
    /\ Forall (fun f => f_open f = false /\ (fun _ => true) (f_t f) = true
                        /\ f_t f <> TypeOther /\ (f_num f < 2 ^ 64)%N) fs'
    /\ forall f,
         f ∈ fs'
         <-> exists fn, is_Some (dir table_1_twice !! fn)
                        /\ parse (mkfile 0 TypeOther false) fn = (f, true)
                        /\ (fun _ => true) (f_t f) = true.
Proof.
  apply (GetFiles_lists quiet (fun _ => true) table_1_twice);
    [by vm_compute | reflexivity | reflexivity].
Defined.

(** X17: a file that was created is listed.  After a successful [Create]
    of a file of a wanted kind, [GetFiles] returns, among others, a new
    file object of the same kind and number, not flagged open although
    the created file is; the object [Create] was called on keeps its
    flag. *)
Theorem Create_then_GetFiles o o' wanted w r f w1 h :
  heap w !! r = Some f -> (f_num f < 2 ^ 64)%N -> wanted (f_t f) = true ->
  fs_open (fs w) < 2 ^ 63 - 1 ->
  Create o r w = (w1, Return (Ok h)) ->
  fault_open o' = None -> fault_readdir o' = None ->
  exists w2 ff p,
    GetFiles o' wanted w1 = (w2, Return (Ok ff))
    /\ p ∈ ff
    /\ heap w2 !! p = Some (mkfile (f_num f) (f_t f) false)
    /\ heap w2 !! r = Some (set_f_open f true).
Proof.
  intros Hf Hnum Hw Hmax Hrun Hfo Hfr.
  pose proof (lookup_lt_Some _ _ _ Hf) as Hlt.
  assert (Hc : exists nm,
    name f = Return nm /\ 0 <= fs_open (fs w) /\ f_open f = false
    /\ dir w1 !! nm = Some EmptyString
    /\ heap w1 = <[r := set_f_open f true]> (heap w)
    /\ fs_open (fs w1) = int (fs_open (fs w) + 1)).
  { revert Hrun. unfold Create, os.Create, os.new_File. unfold_M. rewrite Hf.
    destruct (Z.ltb_spec (fs_open (fs w)) 0); [done |].
    destruct (f_open f); [done |].
    destruct (name f) as [nm|]; [| done].
    destruct (fault_open o); [done |].
    cbn. rewrite Hf. cbn. intros [= <- _]. exists nm. cbn.
    split_and!; try done. apply lookup_insert_eq. }
  destruct Hc as (nm & Hnm & Ha & Ho & Hd & Hh & Hcount).
  rewrite int_small in Hcount by lia.
  assert (Ht : f_t f <> TypeOther).
  { intros Ht. unfold name in Hnm. by rewrite Ht in Hnm. }
  destruct (parse_name (f_t f) (f_num f) Ht Hnum) as (nm' & Hnm' & Hp).
  change (name (mkfile (f_num f) (f_t f) false)) with (name f) in Hnm'.
  rewrite Hnm in Hnm'. injection Hnm' as <-.
  destruct (GetFiles_run o' wanted w1) as (w2 & Hget & Hh2 & _ & _);
    [lia | done | done |].
  assert (Hin : mkfile (f_num f) (f_t f) false
                ∈ listed wanted (map_to_list (dir w1)).*1).
  { apply elem_of_listed_dir. exists nm. by split_and!. }
  apply list_elem_of_lookup in Hin as [i Hi].
  exists w2, (seq (length (heap w1))
               (length (listed wanted (map_to_list (dir w1)).*1))),
    (length (heap w1) + i)%nat.
  split_and!.
  - exact Hget.
  - apply elem_of_seq. apply lookup_lt_Some in Hi. lia.
  - rewrite Hh2, lookup_app_r by lia.
    by replace (length (heap w1) + i - length (heap w1))%nat with i by lia.
  - rewrite Hh2, lookup_app_l by (rewrite Hh, length_insert; lia).
    rewrite Hh. by apply list_lookup_insert_eq.
Qed.

Lemma Create_then_GetFiles_witness :
  exists w2 ff p,
    GetFiles quiet (fun _ => true)
      (Create quiet 0 (storage_with ∅ [mkfile 3 TypeTable false] 0)).1
    = (w2, Return (Ok ff))
    /\ p ∈ ff
    /\ heap w2 !! p = Some (mkfile 3 TypeTable false)
    /\ heap w2 !! 0%nat = Some (set_f_open (mkfile 3 TypeTable false) true).
Proof.
  apply (Create_then_GetFiles quiet quiet (fun _ => true)
           (storage_with ∅ [mkfile 3 TypeTable false] 0) 0
           (mkfile 3 TypeTable false) _ (mkfileWrap 0 0));
    [reflexivity | reflexivity | reflexivity | by vm_compute | by vm_compute
    | reflexivity | reflexivity].
Defined.


